(** * ModernCounter: the animation lifecycle of [src/index.js]

    A shallow embedding of the two widgets of the library, the interval
    driven [ModernCounter] and the digit-strip [VerticalCounter], together
    with the scroll listener both fall back to.

    JavaScript numbers are IEEE 754 binary64 values; they are modelled by
    Rocq's primitive floats, whose operations are the same binary64
    operations.  Callbacks, DOM writes and console output are recorded in a
    chronological trace.  The browser's timer table and the presence of the
    optional GSAP library are part of an explicit page environment. *)

From Stdlib Require Import ZArith Ascii String Uint63 PrimFloat FloatOps SpecFloat.
From stdpp Require Import base gmap list strings pretty.

Set Warnings "-inexact-float".
Local Open Scope Z_scope.

(** ** JavaScript numbers *)

Module JS.

(** The double holding the integer [z] (exact for [|z| < 2^53]). *)
Definition of_Z (z : Z) : float :=
  if z <? 0 then PrimFloat.opp (PrimFloat.of_uint63 (Uint63.of_Z (- z)))
  else PrimFloat.of_uint63 (Uint63.of_Z z).

Definition of_nat (k : nat) : float := of_Z (Z.of_nat k).

(** The signed mantissa of a finite double [(-1)^s * m * 2^e]. *)
Definition signed (s : bool) (m : positive) : Z :=
  if s then Z.neg m else Z.pos m.

(** [Math.ceil].  A finite double is [(-1)^s * m * 2^e]; with [e >= 0] it is
    an integer already, otherwise its magnitude is below [2^53] and the
    ceiling is computed on the mantissa.  NaN, the infinities and the zeros
    are returned unchanged; a negative argument above [-1] gives [-0]. *)
Definition Math_ceil (x : float) : float :=
  match Prim2SF x with
  | S754_finite s m e =>
      if 0 <=? e then x
      else
        let c := - ((- signed s m) / 2 ^ (- e)) in
        if (c =? 0) && s then (-0)%float else of_Z c
  | _ => x
  end.

(** [k >= x] for a tick count [k] and a double [x], decided on the exact
    value of [x].  A count below [2^53] is held exactly by a double, and
    IEEE comparison is exact, so this is the outcome of JavaScript's [>=];
    every comparison with NaN is false. *)
Definition count_geb (k : nat) (x : float) : bool :=
  match Prim2SF x with
  | S754_nan => false
  | S754_infinity s => s
  | S754_zero _ => true
  | S754_finite s m e =>
      if 0 <=? e then signed s m * 2 ^ e <=? Z.of_nat k
      else signed s m <=? Z.of_nat k * 2 ^ (- e)
  end.

(** The integer a double denotes, when it is finite and integral. *)
Definition float_int (x : float) : option Z :=
  match Prim2SF x with
  | S754_zero _ => Some 0
  | S754_finite s m e =>
      if 0 <=? e then Some (signed s m * 2 ^ e)
      else if signed s m mod 2 ^ (- e) =? 0
           then Some (signed s m / 2 ^ (- e)) else None
  | _ => None
  end.

(** Truthiness of a number: everything but [0], [-0] and NaN. *)
Definition truthy (x : float) : bool :=
  negb (PrimFloat.is_zero x || PrimFloat.is_nan x).

(** [a || b] on numbers. *)
Definition or (a b : float) : float := if truthy a then a else b.

(** *** Strings *)

(** A JavaScript string is a sequence of UTF-16 code units.  Here a string
    is written as a [string] holding the UTF-8 bytes of its text, and
    [utf16] gives its code units: one for a character of one, two or three
    bytes, a surrogate pair for a character of four.  (A byte that begins
    no well-formed character is read as U+FFFD; such a [string] is the
    text of no JavaScript string.) *)
Definition continuation (b : N) : bool := ((128 <=? b) && (b <? 192))%N.

Definition low6 (b : N) : N := N.land b 63.

Fixpoint utf16 (bs : list N) : list N :=
  match bs with
  | [] => []
  | b0 :: r0 =>
      if (b0 <? 128)%N then b0 :: utf16 r0
      else
        match r0 with
        | [] => [65533%N]
        | b1 :: r1 =>
            if (b0 <? 224)%N then
              if (192 <=? b0)%N && continuation b1
              then (N.land b0 31 * 64 + low6 b1)%N :: utf16 r1
              else 65533%N :: utf16 r0
            else
              match r1 with
              | [] => 65533%N :: utf16 r0
              | b2 :: r2 =>
                  if (b0 <? 240)%N then
                    if continuation b1 && continuation b2
                    then (N.land b0 15 * 4096 + low6 b1 * 64 + low6 b2)%N
                         :: utf16 r2
                    else 65533%N :: utf16 r0
                  else
                    match r2 with
                    | [] => 65533%N :: utf16 r0
                    | b3 :: r3 =>
                        if (b0 <? 248)%N && continuation b1 && continuation b2
                           && continuation b3
                        then
                          let v := (N.land b0 7 * 262144 + low6 b1 * 4096
                                    + low6 b2 * 64 + low6 b3 - 65536)%N in
                          (55296 + v / 1024)%N :: (56320 + v mod 1024)%N
                          :: utf16 r3
                        else 65533%N :: utf16 r0
                    end
              end
        end
  end.

(** [s.split('')]: the code units of [s], each a string of its own. *)
Definition split (s : string) : list N :=
  utf16 (map N_of_ascii (list_ascii_of_string s)).

(** The text has ASCII characters only. *)
Definition ascii_only (s : string) : bool :=
  forallb (fun c => (N_of_ascii c <? 128)%N) (list_ascii_of_string s).

End JS.

(** ** The scroll position a listener reads *)

Record Geometry := mkGeometry {
  rect_top : float;       (* element.getBoundingClientRect().top *)
  rect_bottom : float;    (* element.getBoundingClientRect().bottom *)
  innerHeight : float;    (* window.innerHeight *)
  clientHeight : float    (* document.documentElement.clientHeight *)
}.

(** The test of [checkScroll], the same in both classes:
    [rect.top <= windowHeight * 0.8 && rect.bottom >= 0]. *)
Definition in_view (g : Geometry) : bool :=
  let windowHeight := JS.or (innerHeight g) (clientHeight g) in
  PrimFloat.leb (rect_top g) (windowHeight * 0.8)%float
  && PrimFloat.leb 0%float (rect_bottom g).

(** ** ModernCounter *)

Module ModernCounter.

(** The numeric and flag options; [onUpdate], [onComplete] and
    [scrollTrigger] record whether the option holds a function (resp. a
    truthy configuration object); the calls themselves go to the trace. *)
Record Config := mkConfig {
  from : float;
  to : float;
  speed : float;
  refreshInterval : float;
  decimals : float;
  onUpdate : bool;
  onComplete : bool;
  scrollTrigger : bool
}.

(** The merged options object: the configuration and the formatter, which
    is called with the value and the options. *)
Record Options := mkOptions {
  config :> Config;
  formatter : float -> Config -> string
}.

Inductive Event :=
| Started                    (* entry of start() *)
| Render (text : string)     (* element.textContent = text *)
| OnUpdate (v : float)       (* options.onUpdate.call(element, v) *)
| OnComplete (v : float)     (* options.onComplete.call(element, v) *)
| Warn (msg : string).       (* console.warn(msg) *)

(** The instance: the fields of [this] and the text of its element.
    [interval = None] stands for an undefined or null handle. *)
Record Counter := mkCounter {
  options : Options;
  value : float;
  loops : float;
  loopCount : nat;
  increment : float;
  interval : option positive;
  textContent : string
}.

(** The page around the instance: whether [gsap] and [gsap.ScrollTrigger]
    are defined, the live [setInterval] timers and GSAP tweens created by
    this instance, its ScrollTrigger registrations, whether its
    [checkScroll] is attached to the window, and the current layout. *)
Record Page := mkPage {
  gsap : bool;
  gsap_ScrollTrigger : bool;
  timers : gset positive;
  next_timer : positive;
  tweens : nat;
  scroll_triggers : nat;
  listening : bool;
  layout : Geometry;
  trace : list Event
}.

Record State := mkState { this : Counter; page : Page }.

(** *** Field updates *)

Definition set_value (v : float) (c : Counter) : Counter :=
  mkCounter (options c) v (loops c) (loopCount c) (increment c)
            (interval c) (textContent c).
Definition set_loopCount (k : nat) (c : Counter) : Counter :=
  mkCounter (options c) (value c) (loops c) k (increment c)
            (interval c) (textContent c).
Definition set_interval (h : option positive) (c : Counter) : Counter :=
  mkCounter (options c) (value c) (loops c) (loopCount c) (increment c)
            h (textContent c).
Definition set_textContent (t : string) (c : Counter) : Counter :=
  mkCounter (options c) (value c) (loops c) (loopCount c) (increment c)
            (interval c) t.

Definition set_timers (ts : gset positive) (n : positive) (p : Page) : Page :=
  mkPage (gsap p) (gsap_ScrollTrigger p) ts n (tweens p)
         (scroll_triggers p) (listening p) (layout p) (trace p).
Definition set_tweens (k : nat) (p : Page) : Page :=
  mkPage (gsap p) (gsap_ScrollTrigger p) (timers p) (next_timer p) k
         (scroll_triggers p) (listening p) (layout p) (trace p).
Definition set_scroll_triggers (k : nat) (p : Page) : Page :=
  mkPage (gsap p) (gsap_ScrollTrigger p) (timers p) (next_timer p)
         (tweens p) k (listening p) (layout p) (trace p).
Definition set_listening (b : bool) (p : Page) : Page :=
  mkPage (gsap p) (gsap_ScrollTrigger p) (timers p) (next_timer p)
         (tweens p) (scroll_triggers p) b (layout p) (trace p).
Definition set_layout (g : Geometry) (p : Page) : Page :=
  mkPage (gsap p) (gsap_ScrollTrigger p) (timers p) (next_timer p)
         (tweens p) (scroll_triggers p) (listening p) g (trace p).
Definition emit (e : Event) (p : Page) : Page :=
  mkPage (gsap p) (gsap_ScrollTrigger p) (timers p) (next_timer p)
         (tweens p) (scroll_triggers p) (listening p) (layout p)
         (trace p ++ [e]).

Definition on_this (f : Counter -> Counter) (s : State) : State :=
  mkState (f (this s)) (page s).
Definition on_page (f : Page -> Page) (s : State) : State :=
  mkState (this s) (f (page s)).

(** *** Browser timers *)

(** [clearInterval(h)]: cancels the timer, if [h] names a live one. *)
Definition clearInterval (h : option positive) (p : Page) : Page :=
  match h with
  | Some id => set_timers (timers p ∖ {[id]}) (next_timer p) p
  | None => p
  end.

(** [setInterval(this.update, delay)]: a fresh, non-zero handle. *)
Definition setInterval (p : Page) : positive * Page :=
  let id := next_timer p in
  (id, set_timers (timers p ∪ {[id]}) (Pos.succ id) p).

(** *** The methods *)

(** [init()] *)
Definition init (c : Counter) : Counter :=
  let o := options c in
  let loops' := JS.Math_ceil (speed o / refreshInterval o)%float in
  mkCounter o (from o) loops' 0%nat ((to o - from o) / loops')%float
            (interval c) (textContent c).

(** [render()] *)
Definition render (s : State) : State :=
  let c := this s in
  let text := formatter (options c) (value c) (options c) in
  mkState (set_textContent text c) (emit (Render text) (page s)).

Definition call_onUpdate (s : State) : State :=
  if onUpdate (options (this s))
  then on_page (emit (OnUpdate (value (this s)))) s else s.

Definition call_onComplete (v : float) (s : State) : State :=
  if onComplete (options (this s))
  then on_page (emit (OnComplete v)) s else s.

(** [update], the callback of the interval timer. *)
Definition update (s : State) : State :=
  let s := on_this (fun c => set_value (value c + increment c)%float c) s in
  let s := on_this (fun c => set_loopCount (S (loopCount c)) c) s in
  let s := render s in
  let s := call_onUpdate s in
  if JS.count_geb (loopCount (this s)) (loops (this s)) then
    let s := on_page (clearInterval (interval (this s))) s in
    let s := on_this (set_value (to (options (this s)))) s in
    let s := render s in
    call_onComplete (value (this s)) s
  else s.

(** [stop()] *)
Definition stop (s : State) : State :=
  let s :=
    match interval (this s) with
    | Some id =>
        on_this (set_interval None) (on_page (clearInterval (Some id)) s)
    | None => s
    end in
  if gsap (page s) then on_page (set_tweens 0) s else s.

(** [animateWithGSAP()]: the returned flag tells whether GSAP took over.
    [gsap.to(this, ...)] adds one live tween on the instance. *)
Definition animateWithGSAP (s : State) : bool * State :=
  if gsap (page s) then
    let s := stop s in
    let s := on_this (set_value (from (options (this s)))) s in
    (true, on_page (fun p => set_tweens (S (tweens p)) p) s)
  else (false, s).

(** [start()] *)
Definition start (s : State) : State :=
  let s := on_page (emit Started) s in
  let s := stop s in
  let s := render s in
  let '(used, s) := animateWithGSAP s in
  if used then s
  else
    let '(id, p) := setInterval (page s) in
    mkState (set_interval (Some id) (this s)) p.

(** [restart()] *)
Definition restart (s : State) : State :=
  start (on_this init (stop s)).

(** [toggle()] *)
Definition toggle (s : State) : State :=
  match interval (this s) with
  | Some _ => stop s
  | None => start s
  end.

(** [checkScroll], the listener of [setupScrollListener]. *)
Definition checkScroll (s : State) : State :=
  if in_view (layout (page s))
  then on_page (set_listening false) (start s)
  else s.

(** [setupScrollListener()] *)
Definition setupScrollListener (s : State) : State :=
  checkScroll (on_page (set_listening true) s).

(** [setupScrollTrigger()] *)
Definition setupScrollTrigger (s : State) : State :=
  if gsap_ScrollTrigger (page s)
  then on_page (fun p => set_scroll_triggers (S (scroll_triggers p)) p) s
  else
    setupScrollListener
      (on_page
         (emit (Warn "ScrollTrigger plugin not loaded, falling back to scroll listener"))
         s).

(** The constructor, on the merged options [o] and an element showing
    [text0].  The fields are assigned by [init]; [interval] stays
    undefined. *)
Definition construct (text0 : string) (o : Options) (p : Page) : State :=
  let blank := mkCounter o 0%float 0%float 0%nat 0%float None text0 in
  let s := mkState (init blank) p in
  if scrollTrigger o && gsap p then setupScrollTrigger s else s.

(** [initCounter(element, options)] *)
Definition initCounter (text0 : string) (o : Options) (p : Page) : State :=
  start (construct text0 o p).

(** *** What the browser does *)

(** The interval timer held in [this.interval] fires: [update] runs if the
    timer is still live. *)
Definition tick (s : State) : State :=
  match interval (this s) with
  | Some id => if decide (id ∈ timers (page s)) then update s else s
  | None => s
  end.

Definition ticks (n : nat) (s : State) : State := Nat.iter n tick s.

(** A scroll event at layout [g]: the attached listener runs. *)
Definition scroll (g : Geometry) (s : State) : State :=
  let s := on_page (set_layout g) s in
  if listening (page s) then checkScroll s else s.

(** The operations a client or the browser can apply to an instance. *)
Inductive Op :=
| OpStart | OpStop | OpRestart | OpToggle | OpTick | OpScroll (g : Geometry).

Definition step (op : Op) (s : State) : State :=
  match op with
  | OpStart => start s
  | OpStop => stop s
  | OpRestart => restart s
  | OpToggle => toggle s
  | OpTick => tick s
  | OpScroll g => scroll g s
  end.

Definition run (ops : list Op) (s : State) : State :=
  foldl (fun s op => step op s) s ops.

(** A page on which the instance owns nothing yet. *)
Definition fresh_page (gsap_loaded plugin : bool) (g : Geometry) : Page :=
  mkPage gsap_loaded plugin ∅ 1%positive 0 0 false g [].

(** *** Observations on traces *)

Definition is_update (e : Event) : bool :=
  match e with OnUpdate _ => true | _ => false end.
Definition is_complete (e : Event) : bool :=
  match e with OnComplete _ => true | _ => false end.
Definition is_started (e : Event) : bool :=
  match e with Started => true | _ => false end.

Definition count (f : Event -> bool) (l : list Event) : nat :=
  length (List.filter f l).

(** At most one live timer, and it is the one [this.interval] names. *)
Definition timer_inv (s : State) : Prop :=
  ∀ id, id ∈ timers (page s) → interval (this s) = Some id.

(** The interval timer of the instance is live. *)
Definition running (s : State) : Prop :=
  ∃ id, interval (this s) = Some id ∧ id ∈ timers (page s).

(** *** Runs of the interval timer *)

(** What one call of [update] appends to the trace. *)
Definition update_events (s : State) : list Event :=
  let c := this s in
  let o := options c in
  let v := (value c + increment c)%float in
  [Render (formatter o v o)]
  ++ (if onUpdate o then [OnUpdate v] else [])
  ++ (if JS.count_geb (S (loopCount c)) (loops c)
      then Render (formatter o (to o) o)
           :: (if onComplete o then [OnComplete (to o)] else [])
      else []).

(** The trace written since the page was [p]. *)
Definition events_since (p : Page) (s : State) : list Event :=
  drop (length (trace p)) (trace (page s)).

(** [s'] is [s] after [k] calls of [update]: the setup is the same, the
    tick count grew by [k], and the trace grew by [k] update-hook calls
    (when the hook is set) and no [start()]. *)
Record advanced (s : State) (k : nat) (s' : State) : Prop := mkAdvanced {
  adv_options : options (this s') = options (this s);
  adv_loops : loops (this s') = loops (this s);
  adv_increment : increment (this s') = increment (this s);
  adv_interval : interval (this s') = interval (this s);
  adv_loopCount : loopCount (this s') = (loopCount (this s) + k)%nat;
  adv_trace : ∃ evs,
      trace (page s') = trace (page s) ++ evs
      ∧ count is_started evs = 0%nat
      ∧ count is_update evs = (if onUpdate (options (this s)) then k else 0%nat)
}.

(** The ticks a run needs from [s] when [loops] holds the integer [z]:
    the first tick that brings [loopCount] to [z] or beyond. *)
Definition remaining (z : Z) (s : State) : nat :=
  Z.to_nat (Z.max 1 (z - Z.of_nat (loopCount (this s)))).

(** *** Example configurations *)

(** A formatter for the examples: the decimal text of an integral value. *)
Definition integer_formatter (v : float) (_ : Config) : string :=
  match JS.float_int v with
  | Some z => pretty z
  | None => "?"
  end.

Definition origin : Geometry := mkGeometry 0 0 768 768.

(** A page without GSAP. *)
Definition plain_page : Page := fresh_page false false origin.

(** [from = 0, to = 1000, speed = 2000, refreshInterval = 100] *)
Definition scenario : Options :=
  mkOptions (mkConfig 0 1000 2000 100 0 true true false) integer_formatter.

(** [from = 0, to = 1, speed = 1000, refreshInterval = 100]: ten ticks of
    a tenth each. *)
Definition tenths : Options :=
  mkOptions (mkConfig 0 1 1000 100 0 true true false) integer_formatter.

(** [speed = 0]: the duration yields no tick at all. *)
Definition instant : Options :=
  mkOptions (mkConfig 0 10 0 100 0 true true false) integer_formatter.

(** *** Readings of the specification that the code does not follow *)

(** [start()] puts the value back to [from] and the tick count to zero. *)
Definition start_reinitializes (s : State) : Prop :=
  value (this (start s)) = from (options (this s))
  ∧ loopCount (this (start s)) = 0%nat.

(** Over a complete run from construction the update hook is called
    [totalTicks] times, whatever the configuration. *)
Definition updates_equal_totalTicks (text0 : string) (o : Options) (p : Page)
  : Prop :=
  let s0 := initCounter text0 o p in
  ∀ (n m : nat),
    JS.float_int (loops (this s0)) = Some (Z.of_nat n) →
    timers (page (ticks m s0)) = ∅ →
    count is_update (events_since p (ticks m s0)) = n.

(** The value after tick [k] as the linear formula gives it, in
    JavaScript's reading [from + ((k * (to - from)) / totalTicks)] and with
    the per-tick delta first, [from + k * ((to - from) / totalTicks)]. *)
Definition linear_value (o : Options) (k : nat) : float :=
  let n := JS.Math_ceil (speed o / refreshInterval o)%float in
  (from o + JS.of_nat k * (to o - from o) / n)%float.

Definition linear_value_delta (o : Options) (k : nat) : float :=
  let n := JS.Math_ceil (speed o / refreshInterval o)%float in
  (from o + JS.of_nat k * ((to o - from o) / n))%float.

(** The state of the example run after five ticks and a [stop()]. *)
Definition interrupted : State :=
  stop (ticks 5 (initCounter "" scenario plain_page)).

(** *** Well-formed states *)

(** Live handles are older than the next handle [setInterval] returns. *)
Definition handles_fresh (s : State) : Prop :=
  ∀ id, id ∈ timers (page s) → (id < next_timer (page s))%positive.

Definition well_formed (s : State) : Prop :=
  timer_inv s ∧ handles_fresh s ∧ (tweens (page s) <= 1)%nat.

End ModernCounter.

(** ** VerticalCounter *)

Module VerticalCounter.

(** What the constructor reads from the element: the [data-to] attribute
    and the [data-duration] attribute as [parseFloat] returns it. *)
Record Element := mkElement {
  data_to : option string;
  data_duration : option float
}.

(** The options argument; [None] is an absent property.  Targets are
    strings, as the [data-to] attribute and the documented usage give them. *)
Record Given := mkGiven {
  given_to : option string;
  given_duration : option float;
  given_scrollTrigger : bool;
  given_onComplete : bool
}.

(** [this.options] after the merge *)
Record Options := mkOptions {
  to : option string;
  duration : float;
  scrollTrigger : bool;
  onComplete : bool
}.

(** [transform <duration>s ease <delay>s] *)
Record Transition := mkTransition {
  transition_duration : float;
  transition_delay : float
}.

(** A strip: its ten number cells, its [style.transition] ([None] is
    ['none'] or unset), its [style.transform] as the number of rows the
    strip is moved up ([translateY(-<n>em)]), and the number of
    [transitionend] handlers attached to it. *)
Record Strip := mkStrip {
  numbers : list nat;
  transition : option Transition;
  transform : option nat;
  handlers : nat
}.

(** An entry of [this.digitElements]; the column only wraps the strip. *)
Record Digit := mkDigit {
  strip : Strip;
  value : nat
}.

Inductive Task :=
| RunStart                                   (* () => this.start() *)
| SetTransform (index : nat) (rows : nat).   (* strip.style.transform = ... *)

Inductive Event :=
| Started                    (* entry of start() *)
| ConsoleError (msg : string).

(** [digitElements = None] is the undefined field of an instance whose
    construction returned early. *)
Record Widget := mkWidget {
  options : Options;
  digitElements : option (list Digit)
}.

(** The page: whether the global [ScrollTrigger] is defined, the
    registrations made with it, the pending [setTimeout] tasks with their
    delays in milliseconds, whether [checkScroll] is attached, the layout
    and the trace. *)
Record Page := mkPage {
  ScrollTrigger : bool;
  scroll_triggers : nat;
  timeouts : list (float * Task);
  listening : bool;
  layout : Geometry;
  trace : list Event
}.

Record State := mkState { this : Widget; page : Page }.

Definition DEFAULTS : Options := mkOptions None 2%float false false.

(** The three-way merge of the constructor: defaults, then the data
    attributes ([parseFloat(...) || 2] for the duration), then the
    options argument. *)
Definition merge (el : Element) (g : Given) : Options :=
  mkOptions
    (match given_to g with
     | Some t => Some t
     | None => match data_to el with Some t => Some t | None => to DEFAULTS end
     end)
    (match given_duration g with
     | Some d => d
     | None =>
         match data_duration el with
         | Some d => JS.or d 2%float
         | None => duration DEFAULTS
         end
     end)
    (given_scrollTrigger g || scrollTrigger DEFAULTS)
    (given_onComplete g || onComplete DEFAULTS).

(** Truthiness of [this.options.to]: defined and not the empty string. *)
Definition truthy_to (t : option string) : bool :=
  match t with
  | Some EmptyString | None => false
  | Some _ => true
  end.

Definition set_timeouts (l : list (float * Task)) (p : Page) : Page :=
  mkPage (ScrollTrigger p) (scroll_triggers p) l (listening p) (layout p)
         (trace p).
Definition set_listening (b : bool) (p : Page) : Page :=
  mkPage (ScrollTrigger p) (scroll_triggers p) (timeouts p) b (layout p)
         (trace p).
Definition set_layout (g : Geometry) (p : Page) : Page :=
  mkPage (ScrollTrigger p) (scroll_triggers p) (timeouts p) (listening p) g
         (trace p).
Definition set_scroll_triggers (k : nat) (p : Page) : Page :=
  mkPage (ScrollTrigger p) k (timeouts p) (listening p) (layout p) (trace p).
Definition emit (e : Event) (p : Page) : Page :=
  mkPage (ScrollTrigger p) (scroll_triggers p) (timeouts p) (listening p)
         (layout p) (trace p ++ [e]).
Definition on_page (f : Page -> Page) (s : State) : State :=
  mkState (this s) (f (page s)).

(** [parseInt(c, 10)] on the string of the one code unit [c]: its value
    if it is one of the digits [0] to [9]; [None] is NaN. *)
Definition parseInt_char (c : N) : option nat :=
  if ((48 <=? c) && (c <=? 57))%N then Some (N.to_nat (c - 48)) else None.

(** [parseInt(digitValue, 10) || 0] *)
Definition digit_value (c : N) : nat := default 0%nat (parseInt_char c).

(** The strip built for one digit: the numbers 0 to 9, no inline
    transition or transform yet. *)
Definition new_strip : Strip := mkStrip (seq 0 10) None None 0.

(** [buildCounter()]: one entry per code unit of the target, in order. *)
Definition buildCounter (s : State) : State :=
  let digits :=
    match to (options (this s)) with
    | Some t => JS.split t
    | None => []
    end in
  mkState
    (mkWidget (options (this s))
              (Some (map (fun c => mkDigit new_strip (digit_value c)) digits)))
    (page s).

(** The stagger delay of column [index], in seconds: [index * 0.1]. *)
Definition stagger (index : nat) : float := (JS.of_nat index * 0.1)%float.

(** The body of the [forEach] of [start()] on one column, up to the
    scheduling of the transform. *)
Definition start_digit (d : float) (index : nat) (x : Digit) : Digit :=
  let st := strip x in
  mkDigit
    (mkStrip (numbers st) (Some (mkTransition d (stagger index))) (Some 0%nat)
             (S (handlers st)))
    (value x).

(** [start()]; [None] is the TypeError of reading [digitElements.length]
    on an instance that was never built. *)
Definition start (s : State) : option State :=
  match digitElements (this s) with
  | None => None
  | Some ds =>
      let p := emit Started (page s) in
      let tasks := imap (fun i x => (50%float, SetTransform i (value x))) ds in
      Some (mkState
              (mkWidget (options (this s))
                        (Some (imap (start_digit (duration (options (this s)))) ds)))
              (set_timeouts (timeouts p ++ tasks) p))
  end.

(** [reset()] *)
Definition reset (s : State) : option State :=
  match digitElements (this s) with
  | None => None
  | Some ds =>
      let snap x :=
        let st := strip x in
        mkDigit (mkStrip (numbers st) None (Some 0%nat) (handlers st)) (value x) in
      Some (mkState (mkWidget (options (this s)) (Some (map snap ds))) (page s))
  end.

(** The text of the [console.error] call:
    [VerticalCounter requires a "to" value]. *)
Definition error_message : string :=
  let q := String (ascii_of_nat 34) EmptyString in
  ("VerticalCounter requires a " +:+ q +:+ "to" +:+ q +:+ " value")%string.

(** [checkScroll], the listener of [setupScrollListener]. *)
Definition checkScroll (s : State) : option State :=
  if in_view (layout (page s))
  then on_page (set_listening false) <$> start s
  else Some s.

(** [setupScrollListener()] *)
Definition setupScrollListener (s : State) : option State :=
  checkScroll (on_page (set_listening true) s).

(** The constructor.  It never throws: without a target it logs the error
    and returns before anything is built or scheduled. *)
Definition construct (el : Element) (g : Given) (p : Page) : option State :=
  let o := merge el g in
  let s := mkState (mkWidget o None) p in
  if negb (truthy_to (to o)) then
    Some (on_page (emit (ConsoleError error_message)) s)
  else
    let s := buildCounter s in
    if scrollTrigger o then
      if ScrollTrigger (page s)
      then Some (on_page (fun p => set_scroll_triggers (S (scroll_triggers p)) p) s)
      else setupScrollListener s
    else
      Some (on_page (fun p => set_timeouts (timeouts p ++ [(100%float, RunStart)]) p) s).

(** A scroll event at layout [g]. *)
Definition scroll (g : Geometry) (s : State) : option State :=
  let s := on_page (set_layout g) s in
  if listening (page s) then checkScroll s else Some s.

Definition scrolls (gs : list Geometry) (s : State) : option State :=
  foldl (fun r g => r ≫= scroll g) (Some s) gs.

Definition fresh_page (plugin : bool) (g : Geometry) : Page :=
  mkPage plugin 0 [] false g [].

Definition is_started (e : Event) : bool :=
  match e with Started => true | _ => false end.
Definition is_error (e : Event) : bool :=
  match e with ConsoleError _ => true | _ => false end.

Definition count (f : Event -> bool) (l : list Event) : nat :=
  length (List.filter f l).

(** *** Examples *)

(** An element with [data-to="4562"] and no options argument. *)
Definition target_4562 : Element := mkElement (Some "4562"%string) None.
Definition no_options : Given := mkGiven None None false false.

(** An element without [data-to]. *)
Definition no_target : Element := mkElement None None.

End VerticalCounter.

(** ** Layouts for the scroll examples *)

(** An element 100 pixels high whose top is at [top], in a viewport 1000
    pixels high. *)
Definition layout_at (top : float) : Geometry :=
  mkGeometry top (top + 100)%float 1000 1000.

(** ** ModernCounter: where the options come from *)

Module CounterOptions.
Import ModernCounter.

(** The data attributes of the element.  [None] is an absent attribute;
    otherwise the number its parser returned, NaN included: [parseFloat] for
    [data-from] and [data-to], [parseInt(_, 10)] for the others. *)
Record Attributes := mkAttributes {
  data_from : option float;
  data_to : option float;
  data_speed : option float;
  data_refresh_interval : option float;   (* data-refresh-interval *)
  data_refreshInterval : option float;    (* data-refreshInterval *)
  data_decimals : option float
}.

(** An options object whose properties may be absent: what
    [getDataOptions] returns and what the constructor is given.  For the
    hooks and [scrollTrigger] the flag tells whether the property holds a
    function (a truthy object). *)
Record Partial := mkPartial {
  opt_from : option float;
  opt_to : option float;
  opt_speed : option float;
  opt_refreshInterval : option float;
  opt_decimals : option float;
  opt_formatter : option (float -> Config -> string);
  opt_onUpdate : option bool;
  opt_onComplete : option bool;
  opt_scrollTrigger : option bool
}.

Definition no_attributes : Attributes :=
  mkAttributes None None None None None None.

Definition no_options : Partial :=
  mkPartial None None None None None None None None None.

(** [getDataOptions()] *)
Definition getDataOptions (a : Attributes) : Partial :=
  mkPartial
    ((λ x, JS.or x 0%float) <$> data_from a)
    ((λ x, JS.or x 0%float) <$> data_to a)
    ((λ x, JS.or x 1000%float) <$> data_speed a)
    (match data_refresh_interval a with
     | Some x => Some (JS.or x 100%float)
     | None => (λ x, JS.or x 100%float) <$> data_refreshInterval a
     end)
    ((λ x, JS.or x 0%float) <$> data_decimals a)
    None None None None.

(** [DEFAULTS], over the text [toFixed v d] that [v.toFixed(d)] returns. *)
Definition DEFAULTS (toFixed : float -> float -> string) : Options :=
  mkOptions (mkConfig 0 0 1000 100 0 false false false)
            (λ v c, toFixed v (decimals c)).

(** The spread [{...base, ...over}]. *)
Definition spread (base : Options) (over : Partial) : Options :=
  mkOptions
    (mkConfig
       (default (from base) (opt_from over))
       (default (to base) (opt_to over))
       (default (speed base) (opt_speed over))
       (default (refreshInterval base) (opt_refreshInterval over))
       (default (decimals base) (opt_decimals over))
       (default (onUpdate base) (opt_onUpdate over))
       (default (onComplete base) (opt_onComplete over))
       (default (scrollTrigger base) (opt_scrollTrigger over)))
    (default (formatter base) (opt_formatter over)).

(** [this.options] as the constructor builds it. *)
Definition merge (toFixed : float -> float -> string) (a : Attributes)
    (given : Partial) : Options :=
  spread (spread (DEFAULTS toFixed) (getDataOptions a)) given.

End CounterOptions.

(** ** VerticalCounter: timeouts and transition ends *)

Module DigitRuns.
Import VerticalCounter.

#[global] Instance Task_eq_dec : EqDecision Task.
Proof. solve_decision. Defined.

(** [strip.style.transform = `translateY(-<rows>em)`] *)
Definition set_transform (rows : nat) (x : Digit) : Digit :=
  let st := strip x in
  mkDigit (mkStrip (numbers st) (transition st) (Some rows) (handlers st))
          (value x).

(** The callback of a timeout.  [digitElements] is assigned once, by
    [buildCounter], so the index of a column names its strip. *)
Definition fire (t : Task) (s : State) : option State :=
  match t with
  | RunStart => start s
  | SetTransform i rows =>
      Some (mkState
              (mkWidget (options (this s))
                        (alter (set_transform rows) i <$> digitElements (this s)))
              (page s))
  end.

(** The callbacks of the tasks [ts] run one after the other. *)
Definition fire_all (ts : list Task) (s : State) : option State :=
  foldl (λ r t, r ≫= fire t) (Some s) ts.

(** The tasks a [start()] schedules on the columns [ds]. *)
Definition start_tasks (ds : list Digit) : list Task :=
  imap (λ i x, SetTransform i (value x)) ds.

(** Every strip holds the numbers 0 to 9. *)
Definition ten_numbers (ds : list Digit) : Prop :=
  Forall (λ x, numbers (strip x) = seq 0 10) ds.

(** The digit a strip shows: the number cell moved into the window. *)
Definition shown (x : Digit) : option nat :=
  transform (strip x) ≫= λ rows, numbers (strip x) !! rows.

(** One call of [start()]: its [completeCount] and the [totalDigits] it
    read. *)
Record Run := mkRun {
  completeCount : nat;
  totalDigits : nat
}.

(** The bookkeeping of the closures of [start()]: the runs, oldest first;
    for each column the runs whose [transitionend] handler is still attached
    to its strip, in the order they were added; and the number of calls of
    [options.onComplete]. *)
Record Tracking := mkTracking {
  runs : list Run;
  attached : list (list nat);
  completed : nat
}.

Record Tracked := mkTracked {
  widget : State;
  tracking : Tracking
}.

(** The bookkeeping as the instance [s] shows it.  Every [start()] adds
    one handler to every strip, and a handler leaves its strip only when it
    runs, which is when it calls [checkCompletion]; a [transitionend] runs
    all the handlers of its strip.  So a strip with [k] handlers holds
    those of the latest [k] calls of [start()]; with [h] the largest of
    these numbers, [h] runs still have a handler somewhere, and the
    [completeCount] of each is the number of strips its handler has left.
    Runs without a handler can never count again and are left out;
    [completed] counts the calls of [options.onComplete] from here on. *)
Definition untracked (s : State) : Tracked :=
  let hs :=
    match digitElements (this s) with
    | Some ds => map (λ x, handlers (strip x)) ds
    | None => []
    end in
  let h := max_list hs in
  mkTracked s
    (mkTracking
       (map (λ r, mkRun (length (List.filter (λ k, (k + r <? h)%nat) hs))
                        (length hs))
            (seq 0 h))
       (map (λ k, seq (h - k) k) hs)
       0).

(** [start()] with its closures: a new run, and its handler on every
    strip. *)
Definition start_tracked (t : Tracked) : option Tracked :=
  match digitElements (this (widget t)), start (widget t) with
  | Some ds, Some s' =>
      let k := tracking t in
      let id := length (runs k) in
      Some (mkTracked s'
              (mkTracking (runs k ++ [mkRun 0 (length ds)])
                          (map (λ hs, hs ++ [id]) (attached k))
                          (completed k)))
  | _, _ => None
  end.

(** [checkCompletion] of the run [id]. *)
Definition checkCompletion (hook : bool) (k : Tracking) (id : nat) : Tracking :=
  match runs k !! id with
  | None => k
  | Some r =>
      let c := S (completeCount r) in
      mkTracking (<[id := mkRun c (totalDigits r)]> (runs k)) (attached k)
                 (if (totalDigits r <=? c)%nat && hook
                  then S (completed k) else completed k)
  end.

(** The strip of column [i] gets all its handlers removed. *)
Definition clear_handlers (x : Digit) : Digit :=
  let st := strip x in
  mkDigit (mkStrip (numbers st) (transition st) (transform st) 0) (value x).

(** A [transitionend] event on the strip of column [i]: every handler
    attached to it removes itself and calls [checkCompletion]. *)
Definition transitionend (i : nat) (t : Tracked) : Tracked :=
  let s := widget t in
  let k := tracking t in
  let hs := default [] (attached k !! i) in
  mkTracked
    (mkState
       (mkWidget (options (this s))
                 (alter clear_handlers i <$> digitElements (this s)))
       (page s))
    (foldl (checkCompletion (onComplete (options (this s))))
           (mkTracking (runs k) (<[i := []]> (attached k)) (completed k))
           hs).

Definition transitionends (es : list nat) (t : Tracked) : Tracked :=
  foldl (λ t i, transitionend i t) t es.

(** Every column below [n] occurs among the events [es]. *)
Definition all_ended (n : nat) (es : list nat) : bool :=
  forallb (λ i, bool_decide (i ∈ es)) (seq 0 n).

(** The number of columns below [n] that occur among the events [es]. *)
Definition ended (n : nat) (es : list nat) : nat :=
  length (List.filter (λ i, bool_decide (i ∈ es)) (seq 0 n)).

(** [start()] called [m] times in a row. *)
Definition start_times (m : nat) (t : Tracked) : option Tracked :=
  Nat.iter m (λ r, r ≫= start_tracked) (Some t).

End DigitRuns.

(** ** ModernCounter: the callbacks given to GSAP *)

Module TweenRuns.
Import ModernCounter.

(** One frame of the tween created by [gsap.to(this, {value: ...})]: GSAP
    writes the frame's value [v] into [this.value] and calls the [onUpdate]
    callback it was given.  A killed or finished tween gets no callback. *)
Definition tween_onUpdate (v : float) (s : State) : State :=
  match tweens (page s) with
  | O => s
  | S _ => call_onUpdate (render (on_this (set_value v) s))
  end.

(** The end of the tween: GSAP calls the [onComplete] callback it was given
    and drops the tween. *)
Definition tween_onComplete (s : State) : State :=
  match tweens (page s) with
  | O => s
  | S k =>
      on_page (set_tweens k)
        (call_onComplete (to (options (this s))) s)
  end.

(** The frames with the values [vs], in order. *)
Definition frames (vs : list float) (s : State) : State :=
  foldl (λ s v, tween_onUpdate v s) s vs.

(** What the frames with the values [vs] write to the trace. *)
Definition frame_events (o : Options) (vs : list float) : list Event :=
  flat_map (λ v, Render (formatter o v o)
                 :: (if onUpdate o then [OnUpdate v] else [])) vs.

End TweenRuns.

(** ** Tick counts as doubles *)

Module JSChecks.

(** The comparison [k >= n] as JavaScript makes it on the doubles of [k]
    and [n], against the exact [JS.count_geb]. *)
Definition agree (n k : nat) : bool :=
  Bool.eqb (PrimFloat.leb (JS.of_nat n) (JS.of_nat k))
           (JS.count_geb k (JS.of_nat n)).

Definition agree_below (N : nat) : bool :=
  forallb (λ n, forallb (agree n) (seq 0 N)) (seq 0 N).

(** [k++] on the double of [k] gives the double of [k + 1]. *)
Definition increments_below (N : nat) : bool :=
  forallb (λ k, PrimFloat.eqb (JS.of_nat k + 1)%float (JS.of_nat (S k)))
          (seq 0 N).

End JSChecks.

(** ** Further example configurations *)

(** A built two-column VerticalCounter with a completion hook. *)
Definition two_columns : VerticalCounter.State :=
  VerticalCounter.mkState
    (VerticalCounter.mkWidget
       (VerticalCounter.mkOptions (Some "42"%string) 2 false true)
       (Some [VerticalCounter.mkDigit VerticalCounter.new_strip 4;
              VerticalCounter.mkDigit VerticalCounter.new_strip 2]))
    (VerticalCounter.fresh_page false (layout_at 0)).


(** [refreshInterval = 0]: the division yields positive infinity. *)
Definition endless : ModernCounter.Options :=
  ModernCounter.mkOptions
    (ModernCounter.mkConfig 0 10 1000 0 0 true true false)
    ModernCounter.integer_formatter.

(** A page on which [gsap] is defined, without the ScrollTrigger plugin. *)
Definition gsap_page : ModernCounter.Page :=
  ModernCounter.fresh_page true false ModernCounter.origin.

(** * Properties *)

(** ** Tick counts against doubles *)

(** When the double [x] holds the integer [z], [k >= x] is the comparison
    of the integers. *)
Lemma count_geb_float_int (x : float) (z : Z) (k : nat) :
  JS.float_int x = Some z → JS.count_geb k x = (z <=? Z.of_nat k).
Proof.
  unfold JS.float_int, JS.count_geb.
  destruct (Prim2SF x) as [s| s | | s m e]; try discriminate.
  - intros [= <-]. symmetry. apply Z.leb_le. lia.
  - destruct (0 <=? e) eqn:He.
    + intros [= <-]. reflexivity.
    + apply Z.leb_gt in He.
      destruct (JS.signed s m mod 2 ^ (- e) =? 0) eqn:Hm; try discriminate.
      intros [= <-]. apply Z.eqb_eq in Hm.
      assert (Hp : 0 < 2 ^ (- e)) by (apply Z.pow_pos_nonneg; lia).
      set (d := 2 ^ (- e)) in *. set (a := JS.signed s m) in *.
      assert (Ha : a = d * (a / d)) by (apply Z.div_exact; lia).
      apply eq_true_iff_eq. rewrite !Z.leb_le. nia.
Qed.

(** Two doubles that [=?] tells apart are different. *)
Lemma float_neq (x y : float) : PrimFloat.eqb x y = false → PrimFloat.eqb y y = true → x ≠ y.
Proof. intros Hxy Hyy ->. congruence. Qed.

(** ** The methods of ModernCounter, one by one *)

Module CounterFacts.
Import ModernCounter.

(** Case analysis on a state: its fields, the two hook flags, the handle. *)
Ltac destruct_state s :=
  let o := fresh "o" in let v := fresh "v" in let l := fresh "l" in
  let lc := fresh "lc" in let inc := fresh "inc" in let h := fresh "h" in
  let txt := fresh "txt" in let p := fresh "p" in
  let cfg := fresh "cfg" in let fmt := fresh "fmt" in
  let ou := fresh "ou" in let oc := fresh "oc" in
  destruct s as [[o v l lc inc h txt] p];
  destruct o as [cfg fmt]; destruct cfg as [? ? ? ? ? ou oc ?];
  destruct p; destruct h; destruct ou; destruct oc.

(** Evaluation of the methods on a state given by its fields. *)
Ltac compute_methods :=
  cbv [update update_events call_onUpdate call_onComplete render init stop
       start restart toggle animateWithGSAP setInterval clearInterval
       on_this on_page emit set_value set_loopCount set_interval
       set_textContent set_timers set_tweens set_listening set_layout
       this page options value loops loopCount increment interval
       textContent config formatter from to speed refreshInterval onUpdate
       onComplete gsap timers next_timer tweens trace listening layout
       scroll_triggers gsap_ScrollTrigger] in *.

Ltac update_cases s :=
  destruct_state s; compute_methods;
  match goal with
  | |- context [JS.count_geb ?k ?l] => destruct (JS.count_geb k l)
  end.

Ltac stop_cases s :=
  destruct_state s;
  match goal with g : bool |- context [mkPage ?g] => destruct g end;
  compute_methods.

Lemma count_app f l l' : count f (l ++ l') = (count f l + count f l')%nat.
Proof. unfold count. rewrite List.filter_app, length_app. reflexivity. Qed.

Lemma events_since_app p s evs :
  trace (page s) = trace p ++ evs → events_since p s = evs.
Proof. unfold events_since. intros ->. apply drop_app_length. Qed.

(** *** [update] *)

Lemma update_loopCount s : loopCount (this (update s)) = S (loopCount (this s)).
Proof. update_cases s; reflexivity. Qed.

Lemma update_trace s :
  trace (page (update s)) = trace (page s) ++ update_events s.
Proof. update_cases s; cbn; rewrite <- ?app_assoc; reflexivity. Qed.

Lemma update_interval s : interval (this (update s)) = interval (this s).
Proof. update_cases s; reflexivity. Qed.

Lemma update_options s : options (this (update s)) = options (this s).
Proof. update_cases s; reflexivity. Qed.

Lemma update_loops s : loops (this (update s)) = loops (this s).
Proof. update_cases s; reflexivity. Qed.

Lemma update_increment s : increment (this (update s)) = increment (this s).
Proof. update_cases s; reflexivity. Qed.

Lemma update_value s :
  value (this (update s)) =
  if JS.count_geb (S (loopCount (this s))) (loops (this s))
  then to (options (this s))
  else (value (this s) + increment (this s))%float.
Proof. update_cases s; reflexivity. Qed.

Lemma update_textContent s :
  textContent (this (update s)) =
  formatter (options (this s)) (value (this (update s))) (options (this s)).
Proof. update_cases s; reflexivity. Qed.

Lemma update_timers s :
  timers (page (update s)) =
  if JS.count_geb (S (loopCount (this s))) (loops (this s))
  then match interval (this s) with
       | Some id => timers (page s) ∖ {[id]}
       | None => timers (page s)
       end
  else timers (page s).
Proof. update_cases s; reflexivity. Qed.

Lemma update_page_rest s :
  next_timer (page (update s)) = next_timer (page s)
  ∧ tweens (page (update s)) = tweens (page s)
  ∧ gsap (page (update s)) = gsap (page s)
  ∧ listening (page (update s)) = listening (page s).
Proof. update_cases s; auto. Qed.

Lemma update_events_counts s :
  count is_started (update_events s) = 0%nat
  ∧ count is_update (update_events s)
    = (if onUpdate (options (this s)) then 1%nat else 0%nat)
  ∧ count is_complete (update_events s)
    = (if JS.count_geb (S (loopCount (this s))) (loops (this s))
       then if onComplete (options (this s)) then 1%nat else 0%nat
       else 0%nat).
Proof. unfold update_events. repeat case_match; cbn; auto. Qed.

(** *** [stop] *)

Lemma stop_this s : this (stop s) = set_interval None (this s).
Proof. stop_cases s; reflexivity. Qed.

Lemma stop_timers s :
  timers (page (stop s)) =
  match interval (this s) with
  | Some id => timers (page s) ∖ {[id]}
  | None => timers (page s)
  end.
Proof. stop_cases s; reflexivity. Qed.

Lemma stop_trace s : trace (page (stop s)) = trace (page s).
Proof. stop_cases s; reflexivity. Qed.

Lemma stop_page_rest s :
  gsap (page (stop s)) = gsap (page s)
  ∧ next_timer (page (stop s)) = next_timer (page s)
  ∧ listening (page (stop s)) = listening (page s)
  ∧ layout (page (stop s)) = layout (page s)
  ∧ tweens (page (stop s)) = (if gsap (page s) then 0%nat else tweens (page s)).
Proof. stop_cases s; auto. Qed.


Lemma timer_inv_empty s : timers (page s) = ∅ → timer_inv s.
Proof. intros He id Hin. rewrite He in Hin. set_solver. Qed.

Lemma stop_releases s : timer_inv s → timers (page (stop s)) = ∅.
Proof.
  intros Hinv. rewrite stop_timers. unfold timer_inv in Hinv.
  apply leibniz_equiv. intros x. split; [|set_solver].
  destruct (interval (this s)) as [id|] eqn:Hi; intros Hx.
  - apply elem_of_difference in Hx as [Hx Hne].
    apply Hinv in Hx. set_solver.
  - apply Hinv in Hx. discriminate.
Qed.

(** *** [start] *)

Lemma start_builtin s :
  gsap (page s) = false →
  start s =
  mkState
    (mkCounter (options (this s)) (value (this s)) (loops (this s))
       (loopCount (this s)) (increment (this s))
       (Some (next_timer (page s)))
       (formatter (options (this s)) (value (this s)) (options (this s))))
    (set_timers (timers (page (stop s)) ∪ {[next_timer (page s)]})
       (Pos.succ (next_timer (page s)))
       (emit (Render (formatter (options (this s)) (value (this s))
                        (options (this s))))
          (emit Started (page s)))).
Proof.
  destruct_state s; cbn [gsap page]; intros ->; compute_methods; reflexivity.
Qed.

Lemma start_gsap s :
  gsap (page s) = true →
  start s =
  mkState
    (mkCounter (options (this s)) (from (options (this s))) (loops (this s))
       (loopCount (this s)) (increment (this s)) None
       (formatter (options (this s)) (value (this s)) (options (this s))))
    (set_tweens 1
       (set_timers (timers (page (stop s))) (next_timer (page s))
          (emit (Render (formatter (options (this s)) (value (this s))
                           (options (this s))))
             (emit Started (page s))))).
Proof.
  destruct_state s; cbn [gsap page]; intros ->; compute_methods; reflexivity.
Qed.

Lemma start_trace s :
  trace (page (start s))
  = trace (page s)
    ++ [Started;
        Render (formatter (options (this s)) (value (this s)) (options (this s)))].
Proof.
  destruct (gsap (page s)) eqn:Hg;
    [rewrite (start_gsap s Hg) | rewrite (start_builtin s Hg)];
    cbn; rewrite <- app_assoc; reflexivity.
Qed.

Lemma start_running s :
  gsap (page s) = false → timer_inv s →
  running (start s) ∧ timer_inv (start s)
  ∧ timers (page (start s)) = {[next_timer (page s)]}.
Proof.
  intros Hg Hinv. pose proof (stop_releases s Hinv) as Hrel.
  rewrite (start_builtin s Hg), Hrel. cbn.
  rewrite (left_id_L ∅ (∪)). split_and!.
  - exists (next_timer (page s)). cbn. split; [reflexivity | set_solver].
  - intros id Hin. cbn in *. f_equal. set_solver.
  - reflexivity.
Qed.

Lemma start_keeps s :
  gsap (page s) = false →
  options (this (start s)) = options (this s)
  ∧ loops (this (start s)) = loops (this s)
  ∧ increment (this (start s)) = increment (this s)
  ∧ loopCount (this (start s)) = loopCount (this s)
  ∧ value (this (start s)) = value (this s).
Proof. intros Hg. rewrite (start_builtin s Hg). cbn. auto. Qed.

Lemma construct_builtin text0 o p :
  gsap p = false →
  construct text0 o p
  = mkState (init (mkCounter o 0%float 0%float 0%nat 0%float None text0)) p.
Proof.
  intros Hg. unfold construct. rewrite Hg, andb_false_r. reflexivity.
Qed.

(** *** The browser's ticks *)

Lemma tick_running s : running s → tick s = update s.
Proof.
  intros (id & Hi & Hin). unfold tick. rewrite Hi.
  destruct (decide (id ∈ timers (page s))); [reflexivity | contradiction].
Qed.

Lemma tick_idle s : timers (page s) = ∅ → tick s = s.
Proof.
  intros He. unfold tick. destruct (interval (this s)) as [id|]; [|reflexivity].
  destruct (decide (id ∈ timers (page s))) as [Hin|]; [|reflexivity].
  rewrite He in Hin. set_solver.
Qed.

Lemma ticks_idle m s : timers (page s) = ∅ → ticks m s = s.
Proof.
  intros He. induction m as [|m IH]; [reflexivity|].
  unfold ticks in *. simpl. rewrite IH. apply tick_idle, He.
Qed.

Lemma ticks_add a b s : ticks (a + b) s = ticks a (ticks b s).
Proof. unfold ticks. apply Nat.iter_add. Qed.

Lemma update_advanced s : advanced s 1 (update s).
Proof.
  split.
  - apply update_options.
  - apply update_loops.
  - apply update_increment.
  - apply update_interval.
  - rewrite update_loopCount. lia.
  - exists (update_events s). split; [apply update_trace|].
    destruct (update_events_counts s) as (H1 & H2 & _). auto.
Qed.

Lemma advanced_refl s : advanced s 0 s.
Proof.
  split; try reflexivity; [lia|].
  exists []. rewrite app_nil_r. split; [reflexivity|].
  split; [reflexivity|]. destruct (onUpdate (options (this s))); reflexivity.
Qed.

Lemma advanced_trans s a s' b s'' :
  advanced s a s' → advanced s' b s'' → advanced s (b + a) s''.
Proof.
  intros [Ho Hl Hi Hh Hc (e1 & Ht1 & Hs1 & Hu1)]
         [Ho' Hl' Hi' Hh' Hc' (e2 & Ht2 & Hs2 & Hu2)].
  split; [congruence | congruence | congruence | congruence | lia |].
  exists (e1 ++ e2). rewrite Ht2, Ht1, <- app_assoc. split; [reflexivity|].
  rewrite !count_app, Hs1, Hs2, Hu1, Hu2, Ho.
  split; [reflexivity|]. destruct (onUpdate (options (this s))); lia.
Qed.

(** Before the last tick of a run the timer stays live and every tick adds
    the increment. *)
Lemma ticks_before k : ∀ s z,
  running s → JS.float_int (loops (this s)) = Some z →
  Z.of_nat (loopCount (this s)) + Z.of_nat k < z →
  let s' := ticks k s in
  running s' ∧ advanced s k s'
  ∧ timers (page s') = timers (page s)
  ∧ value (this s')
    = Nat.iter k (λ v, (v + increment (this s))%float) (value (this s))
  ∧ (∃ evs, trace (page s') = trace (page s) ++ evs
            ∧ count is_complete evs = 0%nat).
Proof.
  induction k as [|k IH]; intros s z Hrun Hz Hlt; cbn zeta.
  - split_and!; auto using advanced_refl.
    exists []. rewrite app_nil_r. auto.
  - destruct (IH s z Hrun Hz ltac:(lia))
      as (Hrun' & Hadv & Htm & Hval & evs & Htr & Hcmp).
    change (ticks (S k) s) with (tick (ticks k s)).
    set (s' := ticks k s) in *.
    rewrite (tick_running s' Hrun').
    assert (Hgeb : JS.count_geb (S (loopCount (this s'))) (loops (this s')) = false).
    { rewrite (count_geb_float_int _ z); [|rewrite (adv_loops _ _ _ Hadv); exact Hz].
      apply Z.leb_gt. rewrite (adv_loopCount _ _ _ Hadv). lia. }
    assert (Htm' : timers (page (update s')) = timers (page s')).
    { rewrite update_timers, Hgeb. reflexivity. }
    split_and!.
    + destruct Hrun' as (id & Hi & Hin). exists id.
      rewrite update_interval, Htm'. auto.
    + apply (advanced_trans s k s' 1 (update s') Hadv (update_advanced s')).
    + congruence.
    + rewrite update_value, Hgeb, Hval, (adv_increment _ _ _ Hadv). reflexivity.
    + exists (evs ++ update_events s'). rewrite update_trace, Htr, <- app_assoc.
      split; [reflexivity|]. rewrite count_app, Hcmp.
      destruct (update_events_counts s') as (_ & _ & ->). rewrite Hgeb. reflexivity.
Qed.

(** The last tick: the timer is released and the value is the target. *)
Lemma tick_completes s z :
  running s → timer_inv s → JS.float_int (loops (this s)) = Some z →
  z <= Z.of_nat (loopCount (this s)) + 1 →
  let s' := tick s in
  timers (page s') = ∅ ∧ advanced s 1 s'
  ∧ value (this s') = to (options (this s))
  ∧ textContent (this s')
    = formatter (options (this s)) (to (options (this s))) (options (this s))
  ∧ trace (page s') = trace (page s) ++ update_events s
  ∧ JS.count_geb (S (loopCount (this s))) (loops (this s)) = true.
Proof.
  intros Hrun Hinv Hz Hle; cbn zeta. rewrite (tick_running s Hrun).
  assert (Hgeb : JS.count_geb (S (loopCount (this s))) (loops (this s)) = true).
  { rewrite (count_geb_float_int _ z _ Hz). apply Z.leb_le. lia. }
  split_and!.
  - rewrite update_timers, Hgeb. destruct Hrun as (id & Hi & Hin). rewrite Hi.
    apply leibniz_equiv. intros x. split; [|set_solver].
    intros Hx. apply elem_of_difference in Hx as [Hx Hne].
    apply Hinv in Hx. set_solver.
  - apply update_advanced.
  - rewrite update_value, Hgeb. reflexivity.
  - rewrite update_textContent, update_value, Hgeb. reflexivity.
  - apply update_trace.
  - exact Hgeb.
Qed.

(** A run of the built-in timer, from a state [s0] whose timer is live: it
    takes [remaining z s0] ticks, the last of which releases the timer,
    forces the value and calls the completion hook as its last effect. *)
Lemma run_completes s0 z :
  running s0 → timer_inv s0 → JS.float_int (loops (this s0)) = Some z →
  let r := remaining z s0 in
  let sf := ticks r s0 in
  (∀ k, (k < r)%nat →
     running (ticks k s0)
     ∧ value (this (ticks k s0))
       = Nat.iter k (λ v, (v + increment (this s0))%float) (value (this s0))
     ∧ ∃ evs, trace (page (ticks k s0)) = trace (page s0) ++ evs
              ∧ count is_complete evs = 0%nat)
  ∧ timers (page sf) = ∅
  ∧ advanced s0 r sf
  ∧ value (this sf) = to (options (this s0))
  ∧ textContent (this sf)
    = formatter (options (this s0)) (to (options (this s0))) (options (this s0))
  ∧ (∀ m, (r <= m)%nat → ticks m s0 = sf)
  ∧ (∃ evs, trace (page sf)
            = trace (page s0) ++ evs
              ++ (if onComplete (options (this s0))
                  then [OnComplete (to (options (this s0)))] else [])
            ∧ count is_complete evs = 0%nat).
Proof.
  intros Hrun Hinv Hz r sf.
  assert (Hbefore : ∀ k, (k < r)%nat →
            Z.of_nat (loopCount (this s0)) + Z.of_nat k < z ∨ k = 0%nat).
  { intros k Hk. unfold r, remaining in Hk. lia. }
  assert (Hlast : z <= Z.of_nat (loopCount (this s0)) + Z.of_nat r
                  ∧ (1 <= r)%nat).
  { unfold r, remaining. lia. }
  assert (Hk : ∀ k, (k < r)%nat →
     running (ticks k s0) ∧ advanced s0 k (ticks k s0)
     ∧ timers (page (ticks k s0)) = timers (page s0)
     ∧ value (this (ticks k s0))
       = Nat.iter k (λ v, (v + increment (this s0))%float) (value (this s0))
     ∧ (∃ evs, trace (page (ticks k s0)) = trace (page s0) ++ evs
               ∧ count is_complete evs = 0%nat)).
  { intros k Hlt. destruct (Hbefore k Hlt) as [Hb | ->].
    - apply (ticks_before k s0 z Hrun Hz Hb).
    - cbn. split_and!; auto using advanced_refl.
      exists []. rewrite app_nil_r. auto. }
  destruct Hlast as [Hlast Hr1].
  destruct r as [|k] eqn:Er; [lia|].
  destruct (Hk k ltac:(lia)) as (Hrun' & Hadv & Htm & Hval & evs & Htr & Hcmp).
  assert (Hinv' : timer_inv (ticks k s0)).
  { intros id Hin. rewrite Htm in Hin. rewrite (adv_interval _ _ _ Hadv). auto. }
  destruct (tick_completes (ticks k s0) z Hrun' Hinv')
    as (Hts & Hadv' & Hv & Htxt & Htr' & Hgeb).
  { rewrite (adv_loops _ _ _ Hadv). exact Hz. }
  { rewrite (adv_loopCount _ _ _ Hadv). lia. }
  change (tick (ticks k s0)) with (ticks (S k) s0) in *.
  fold sf in Hts, Hadv', Hv, Htxt, Htr'.
  split_and!.
  - intros j Hj. destruct (Hk j Hj) as (? & _ & _ & ? & ?). auto.
  - exact Hts.
  - apply (advanced_trans s0 k _ 1 sf Hadv Hadv').
  - rewrite Hv, (adv_options _ _ _ Hadv). reflexivity.
  - rewrite Htxt, (adv_options _ _ _ Hadv). reflexivity.
  - intros m Hm. replace m with ((m - S k) + S k)%nat by lia.
    rewrite ticks_add. apply ticks_idle. exact Hts.
  - unfold update_events in Htr'. rewrite Hgeb in Htr'.
    rewrite (adv_options _ _ _ Hadv) in Htr'.
    set (o := options (this s0)) in *.
    set (v := (value (this (ticks k s0)) + increment (this (ticks k s0)))%float) in *.
    exists (evs ++ [Render (formatter o v o)]
                ++ (if onUpdate o then [OnUpdate v] else [])
                ++ [Render (formatter o (to o) o)]).
    split.
    + rewrite Htr', Htr. rewrite <- !app_assoc. cbn. reflexivity.
    + rewrite !count_app, Hcmp. destruct (onUpdate o); reflexivity.
Qed.

(** The state a fresh run starts from, on a page without GSAP. *)
Lemma initCounter_builtin text0 o p :
  gsap p = false → timers p = ∅ →
  let s0 := initCounter text0 o p in
  running s0 ∧ timer_inv s0
  ∧ options (this s0) = o
  ∧ loops (this s0) = JS.Math_ceil (speed o / refreshInterval o)%float
  ∧ increment (this s0)
    = ((to o - from o) / JS.Math_ceil (speed o / refreshInterval o))%float
  ∧ loopCount (this s0) = 0%nat
  ∧ value (this s0) = from o
  ∧ trace (page s0) = trace p ++ [Started; Render (formatter o (from o) o)].
Proof.
  intros Hg Ht; cbn zeta. unfold initCounter.
  rewrite (construct_builtin text0 o p Hg).
  set (s := mkState _ p).
  assert (Hgs : gsap (page s) = false) by exact Hg.
  assert (Hinv : timer_inv s) by (apply timer_inv_empty; exact Ht).
  destruct (start_running s Hgs Hinv) as (Hrun & Hinv' & _).
  destruct (start_keeps s Hgs) as (Ho & Hl & Hi & Hc & Hv).
  split_and!; try assumption.
  rewrite start_trace. reflexivity.
Qed.

(** With [loopCount = 0] and [loops] holding [n >= 1], a run takes [n]
    ticks. *)
Lemma remaining_fresh (n : nat) s :
  loopCount (this s) = 0%nat → (1 <= n)%nat → remaining (Z.of_nat n) s = n.
Proof. intros Hc Hn. unfold remaining. rewrite Hc. lia. Qed.

Lemma running_not_released s : running s → timers (page s) ≠ ∅.
Proof. intros (id & _ & Hin) He. rewrite He in Hin. set_solver. Qed.

(** ** The claims on the built-in tick path *)

(** C1. For a configuration whose [totalTicks = ceil(speed / refreshInterval)]
    is an integer [n >= 1], a counter started on a page without GSAP is
    still running before tick [n]; tick [n] releases the timer with
    [loopCount = n], and from then on [value] is exactly [to] and the
    element shows the formatted [to].  From any state whatsoever, the tick
    on which [loopCount] reaches [loops] leaves [value] equal to [to],
    whatever the sum of the increments was. *)
Theorem completion_value_exact text0 (o : Options) p (n : nat) :
  gsap p = false → timers p = ∅ →
  JS.float_int (JS.Math_ceil (speed o / refreshInterval o)%float)
  = Some (Z.of_nat n) →
  (1 <= n)%nat →
  let s0 := initCounter text0 o p in
  (∀ k, (k < n)%nat → running (ticks k s0))
  ∧ timers (page (ticks n s0)) = ∅
  ∧ loopCount (this (ticks n s0)) = n
  ∧ (∀ m, (n <= m)%nat →
       value (this (ticks m s0)) = to o
       ∧ textContent (this (ticks m s0)) = formatter o (to o) o)
  ∧ (∀ s, JS.count_geb (S (loopCount (this s))) (loops (this s)) = true →
       value (this (update s)) = to (options (this s))).
Proof.
  intros Hg Ht Hz Hn s0.
  destruct (initCounter_builtin text0 o p Hg Ht)
    as (Hrun & Hinv & Ho & Hl & Hi & Hc & Hv & Htr).
  fold s0 in Hrun, Hinv, Ho, Hl, Hi, Hc, Hv, Htr.
  assert (Hz' : JS.float_int (loops (this s0)) = Some (Z.of_nat n))
    by (rewrite Hl; exact Hz).
  destruct (run_completes s0 (Z.of_nat n) Hrun Hinv Hz')
    as (Hbefore & Hts & Hadv & Hval & Htxt & Hafter & _).
  rewrite (remaining_fresh n s0 Hc Hn) in *.
  split_and!.
  - intros k Hk. apply (Hbefore k Hk).
  - exact Hts.
  - rewrite (adv_loopCount _ _ _ Hadv), Hc. reflexivity.
  - intros m Hm. rewrite (Hafter m Hm), Hval, Htxt, Ho. auto.
  - intros s Hs. rewrite update_value, Hs. reflexivity.
Qed.

Lemma completion_value_exact_witness :
  value (this (ticks 20 (initCounter "" scenario plain_page))) = 1000%float
  ∧ textContent (this (ticks 20 (initCounter "" scenario plain_page)))
    = "1000"%string.
Proof.
  assert (H := completion_value_exact "" scenario plain_page 20 eq_refl eq_refl).
  destruct H as (_ & _ & _ & H & _); [vm_compute; reflexivity | lia |].
  apply (H 20%nat). lia.
Defined.

(** The events of a fresh run up to tick [k <= n]. *)
Lemma fresh_run_events text0 (o : Options) p (n k : nat) :
  gsap p = false → timers p = ∅ →
  JS.float_int (JS.Math_ceil (speed o / refreshInterval o)%float)
  = Some (Z.of_nat n) →
  (1 <= n)%nat → (k <= n)%nat →
  let s0 := initCounter text0 o p in
  ∃ evs, events_since p (ticks k s0)
         = [Started; Render (formatter o (from o) o)] ++ evs
         ∧ count is_started evs = 0%nat
         ∧ count is_update evs = (if onUpdate o then k else 0%nat).
Proof.
  intros Hg Ht Hz Hn Hk s0.
  destruct (initCounter_builtin text0 o p Hg Ht)
    as (Hrun & Hinv & Ho & Hl & Hi & Hc & Hv & Htr).
  fold s0 in Hrun, Hinv, Ho, Hl, Hi, Hc, Hv, Htr.
  assert (Hz' : JS.float_int (loops (this s0)) = Some (Z.of_nat n))
    by (rewrite Hl; exact Hz).
  assert (Hadv : advanced s0 k (ticks k s0)).
  { destruct (Nat.eq_dec k n) as [->|Hne].
    - destruct (run_completes s0 (Z.of_nat n) Hrun Hinv Hz')
        as (_ & _ & Hadv & _).
      rewrite (remaining_fresh n s0 Hc Hn) in Hadv. exact Hadv.
    - apply (ticks_before k s0 (Z.of_nat n) Hrun Hz'). rewrite Hc. lia. }
  destruct (adv_trace _ _ _ Hadv) as (evs & Hevs & Hs & Hu).
  exists evs. rewrite Ho in Hu. split_and!; try assumption.
  apply events_since_app. rewrite Hevs, Htr, <- app_assoc. reflexivity.
Qed.

(** C3 (amended). [totalTicks] is [Math.ceil(speed / refreshInterval)]; when
    it is an integer [n >= 1] and an update hook is set, a fresh run on the
    built-in timer has called the hook [k] times after tick [k <= n], the
    timer is released at tick [n], and whenever the timer is found released
    the hook has been called exactly [n] times. *)
Theorem update_calls_equal_totalTicks text0 (o : Options) p (n : nat) :
  gsap p = false → timers p = ∅ → onUpdate o = true →
  JS.float_int (JS.Math_ceil (speed o / refreshInterval o)%float)
  = Some (Z.of_nat n) →
  (1 <= n)%nat →
  let s0 := initCounter text0 o p in
  loops (this s0) = JS.Math_ceil (speed o / refreshInterval o)%float
  ∧ timers (page (ticks n s0)) = ∅
  ∧ (∀ k, (k <= n)%nat → count is_update (events_since p (ticks k s0)) = k)
  ∧ (∀ m, timers (page (ticks m s0)) = ∅ →
       count is_update (events_since p (ticks m s0)) = n).
Proof.
  intros Hg Ht Hup Hz Hn s0.
  destruct (initCounter_builtin text0 o p Hg Ht)
    as (Hrun & Hinv & Ho & Hl & Hi & Hc & Hv & Htr).
  fold s0 in Hrun, Hinv, Ho, Hl, Hi, Hc, Hv, Htr.
  assert (Hz' : JS.float_int (loops (this s0)) = Some (Z.of_nat n))
    by (rewrite Hl; exact Hz).
  destruct (run_completes s0 (Z.of_nat n) Hrun Hinv Hz')
    as (Hbefore & Hts & _ & _ & _ & Hafter & _).
  rewrite (remaining_fresh n s0 Hc Hn) in *.
  assert (Hcount : ∀ k, (k <= n)%nat →
            count is_update (events_since p (ticks k s0)) = k).
  { intros k Hk.
    destruct (fresh_run_events text0 o p n k Hg Ht Hz Hn Hk)
      as (evs & Hev & _ & Hu).
    unfold s0. rewrite Hev, count_app, Hu, Hup. reflexivity. }
  split_and!; try assumption.
  intros m Hm. destruct (Nat.lt_ge_cases m n) as [Hlt|Hge].
  - destruct (Hbefore m Hlt) as (Hr & _).
    exfalso. exact (running_not_released _ Hr Hm).
  - rewrite (Hafter m Hge). apply Hcount. lia.
Qed.

Lemma update_calls_equal_totalTicks_witness :
  count is_update (events_since plain_page (ticks 20 (initCounter "" scenario plain_page)))
  = 20%nat.
Proof.
  assert (H := update_calls_equal_totalTicks "" scenario plain_page 20
                 eq_refl eq_refl eq_refl).
  destruct H as (_ & _ & H & _); [vm_compute; reflexivity | lia |].
  apply (H 20%nat). lia.
Defined.

(** C3, as stated for every configuration, fails for [speed = 0]:
    [totalTicks] is [0], the first tick completes the run, and the update
    hook has been called once. *)
Lemma update_calls_zero_ticks :
  JS.float_int (loops (this (initCounter "" instant plain_page))) = Some 0
  ∧ timers (page (ticks 1 (initCounter "" instant plain_page))) = ∅
  ∧ count is_update
      (events_since plain_page (ticks 1 (initCounter "" instant plain_page)))
    = 1%nat
  ∧ ¬ updates_equal_totalTicks "" instant plain_page.
Proof.
  assert (H1 : JS.float_int (loops (this (initCounter "" instant plain_page)))
               = Some 0) by (vm_compute; reflexivity).
  assert (H2 : timers (page (ticks 1 (initCounter "" instant plain_page))) = ∅)
    by (vm_compute; reflexivity).
  assert (H3 : count is_update
                 (events_since plain_page
                    (ticks 1 (initCounter "" instant plain_page))) = 1%nat)
    by (vm_compute; reflexivity).
  split_and!; try assumption.
  intros Hclaim. specialize (Hclaim 0%nat 1%nat H1 H2).
  rewrite H3 in Hclaim. discriminate.
Qed.

(** C4 (amended). On the built-in timer, a run begun by one [start()] from
    a state whose [loops] holds an integer takes [remaining] ticks.  Before the
    last of them the completion hook has not been called; from the last
    tick on, however many timer slots pass, the events of the run end with
    the single call of the completion hook, which therefore follows every
    call of the update hook. *)
Theorem complete_called_once s z :
  gsap (page s) = false → timer_inv s →
  onComplete (options (this s)) = true →
  JS.float_int (loops (this s)) = Some z →
  let r := remaining z s in
  let s0 := start s in
  (∀ k, (k < r)%nat →
     count is_complete (events_since (page s) (ticks k s0)) = 0%nat)
  ∧ (∀ m, (r <= m)%nat →
       ∃ evs, events_since (page s) (ticks m s0)
              = evs ++ [OnComplete (to (options (this s)))]
              ∧ count is_complete evs = 0%nat
              ∧ count is_update evs
                = (if onUpdate (options (this s)) then r else 0%nat)).
Proof.
  intros Hg Hinv Hcb Hz r s0.
  destruct (start_running s Hg Hinv) as (Hrun & Hinv0 & _).
  destruct (start_keeps s Hg) as (Ho & Hl & Hi & Hc & Hv).
  fold s0 in Hrun, Hinv0, Ho, Hl, Hi, Hc, Hv.
  assert (Htr0 : trace (page s0)
                 = trace (page s)
                   ++ [Started;
                       Render (formatter (options (this s)) (value (this s))
                                 (options (this s)))])
    by apply start_trace.
  assert (Hz0 : JS.float_int (loops (this s0)) = Some z) by (rewrite Hl; exact Hz).
  assert (Hr : remaining z s0 = r) by (unfold r, remaining; rewrite Hc; reflexivity).
  destruct (run_completes s0 z Hrun Hinv0 Hz0)
    as (Hbefore & _ & Hadv & _ & _ & Hafter & evs & Hevs & Hcmp).
  rewrite Hr in *. rewrite Ho, Hcb in Hevs.
  split.
  - intros k Hk. destruct (Hbefore k Hk) as (_ & _ & evk & Hevk & Hck).
    erewrite (events_since_app (page s) (ticks k s0));
      [|rewrite Hevk, Htr0, <- app_assoc; reflexivity].
    rewrite count_app, Hck. reflexivity.
  - intros m Hm. rewrite (Hafter m Hm).
    destruct (adv_trace _ _ _ Hadv) as (evs' & Hevs' & _ & Hu).
    assert (He : evs' = evs ++ [OnComplete (to (options (this s)))]).
    { apply (app_inv_head (trace (page s0))). rewrite <- Hevs'. exact Hevs. }
    exists ([Started; Render (formatter (options (this s)) (value (this s))
                               (options (this s)))] ++ evs).
    split_and!.
    + apply events_since_app. rewrite Hevs, Htr0, <- !app_assoc. reflexivity.
    + rewrite count_app, Hcmp. reflexivity.
    + rewrite He, count_app in Hu. cbn in Hu. rewrite Ho in Hu.
      rewrite count_app. cbn. lia.
Qed.

Lemma complete_called_once_witness :
  ∃ evs, events_since plain_page (ticks 25 (initCounter "" scenario plain_page))
         = evs ++ [OnComplete 1000%float]
         ∧ count is_complete evs = 0%nat
         ∧ count is_update evs = 20%nat.
Proof.
  assert (H := complete_called_once (construct "" scenario plain_page) 20 eq_refl).
  destruct H as (_ & H);
    [apply timer_inv_empty; reflexivity | reflexivity
     | vm_compute; reflexivity |].
  apply (H 25%nat). vm_compute. lia.
Defined.

(** C5 (amended). With [totalTicks] an integer [n >= 1], the per-tick delta
    is [(to - from) / totalTicks]; after tick [k < n] the value is [from]
    with the delta added [k] times in double arithmetic, and after tick [n]
    it is [to].  For [from = 0], [to = 1000], [speed = 2000],
    [refreshInterval = 100]: [totalTicks] is 20, the delta is 50, the values
    after ticks 1 to 20 are 50, 100, ..., 1000, and they are those of the
    linear formula. *)
Theorem tick_values text0 (o : Options) p (n : nat) :
  gsap p = false → timers p = ∅ →
  JS.float_int (JS.Math_ceil (speed o / refreshInterval o)%float)
  = Some (Z.of_nat n) →
  (1 <= n)%nat →
  let s0 := initCounter text0 o p in
  let delta :=
    ((to o - from o) / JS.Math_ceil (speed o / refreshInterval o))%float in
  let sc := initCounter "" scenario plain_page in
  increment (this s0) = delta
  ∧ (∀ k, (k < n)%nat →
       value (this (ticks k s0)) = Nat.iter k (λ v, (v + delta)%float) (from o))
  ∧ value (this (ticks n s0)) = to o
  ∧ loops (this sc) = 20%float
  ∧ increment (this sc) = 50%float
  ∧ map (λ k, value (this (ticks k sc))) (seq 1 20)
    = [50; 100; 150; 200; 250; 300; 350; 400; 450; 500;
       550; 600; 650; 700; 750; 800; 850; 900; 950; 1000]%float
  ∧ map (λ k, value (this (ticks k sc))) (seq 1 20)
    = map (linear_value scenario) (seq 1 20).
Proof.
  intros Hg Ht Hz Hn s0 delta sc.
  destruct (initCounter_builtin text0 o p Hg Ht)
    as (Hrun & Hinv & Ho & Hl & Hi & Hc & Hv & Htr).
  fold s0 in Hrun, Hinv, Ho, Hl, Hi, Hc, Hv, Htr.
  assert (Hz' : JS.float_int (loops (this s0)) = Some (Z.of_nat n))
    by (rewrite Hl; exact Hz).
  destruct (run_completes s0 (Z.of_nat n) Hrun Hinv Hz')
    as (Hbefore & _ & _ & Hval & _).
  rewrite (remaining_fresh n s0 Hc Hn) in *.
  split_and!.
  - exact Hi.
  - intros k Hk. destruct (Hbefore k Hk) as (_ & Hk' & _).
    rewrite Hk', Hi, Hv. reflexivity.
  - rewrite Hval, Ho. reflexivity.
  - vm_compute. reflexivity.
  - vm_compute. reflexivity.
  - vm_compute. reflexivity.
  - vm_compute. reflexivity.
Qed.

Lemma tick_values_witness :
  value (this (ticks 7 (initCounter "" scenario plain_page)))
  = Nat.iter 7 (λ v, (v + (1000 - 0) / JS.Math_ceil (2000 / 100))%float) 0%float.
Proof.
  assert (H := tick_values "" scenario plain_page 20 eq_refl eq_refl).
  destruct H as (_ & H & _); [vm_compute; reflexivity | lia |].
  apply (H 7%nat). lia.
Defined.

(** C5, as stated, fails on intermediate ticks: with [from = 0], [to = 1]
    and ten ticks, the value after tick 8 is [0.7999999999999999], below
    the [0.8] that the linear formula gives in either reading. *)
Lemma tick_value_drifts :
  value (this (ticks 8 (initCounter "" tenths plain_page)))
  ≠ linear_value tenths 8
  ∧ value (this (ticks 8 (initCounter "" tenths plain_page)))
    ≠ linear_value_delta tenths 8
  ∧ PrimFloat.ltb (value (this (ticks 8 (initCounter "" tenths plain_page))))
                  (linear_value tenths 8) = true.
Proof.
  split_and!.
  - apply float_neq; vm_compute; reflexivity.
  - apply float_neq; vm_compute; reflexivity.
  - vm_compute. reflexivity.
Qed.

(** ** Stopping and starting *)

(** C10. [stop()] leaves the value, the tick count, the number of ticks,
    the increment, the options and the text of the element as they were,
    and writes nothing to the trace; of the fields of the instance it
    assigns [interval] alone. *)
Theorem stop_changes_only_handle s :
  value (this (stop s)) = value (this s)
  ∧ loopCount (this (stop s)) = loopCount (this s)
  ∧ loops (this (stop s)) = loops (this s)
  ∧ increment (this (stop s)) = increment (this s)
  ∧ options (this (stop s)) = options (this s)
  ∧ textContent (this (stop s)) = textContent (this s)
  ∧ trace (page (stop s)) = trace (page s)
  ∧ this (stop s) = set_interval None (this s).
Proof.
  rewrite stop_this, stop_trace. cbn. auto 10.
Qed.

(** C2 (amended). On the built-in path [start()] after [stop()] resumes: it
    keeps the value and the tick count where [stop()] left them and
    schedules a new timer.  With GSAP present [start()] puts the value back
    to [from].  [restart()] re-initialises in both cases: the value is
    [from] and the tick count is zero. *)
Theorem start_resumes s :
  (gsap (page s) = false →
     value (this (start (stop s))) = value (this s)
     ∧ loopCount (this (start (stop s))) = loopCount (this s)
     ∧ interval (this (start (stop s))) = Some (next_timer (page s))
     ∧ next_timer (page s) ∈ timers (page (start (stop s))))
  ∧ (gsap (page s) = true →
       value (this (start (stop s))) = from (options (this s))
       ∧ loopCount (this (start (stop s))) = loopCount (this s)
       ∧ interval (this (start (stop s))) = None)
  ∧ value (this (restart s)) = from (options (this s))
  ∧ loopCount (this (restart s)) = 0%nat.
Proof.
  destruct (stop_page_rest s) as (Hg & Hn & _).
  split_and!.
  - intros Hgs. rewrite <- Hg in Hgs. rewrite (start_builtin _ Hgs). cbn.
    rewrite stop_this, Hn. cbn. split_and!; try reflexivity. set_solver.
  - intros Hgs. rewrite <- Hg in Hgs. rewrite (start_gsap _ Hgs). cbn.
    rewrite stop_this. cbn. auto.
  - unfold restart. destruct (gsap (page s)) eqn:Hgs.
    + rewrite (start_gsap (on_this init (stop s)) Hg). cbn.
      rewrite stop_this. reflexivity.
    + rewrite (start_builtin (on_this init (stop s)) Hg). cbn.
      rewrite stop_this. reflexivity.
  - unfold restart. destruct (gsap (page s)) eqn:Hgs.
    + rewrite (start_gsap (on_this init (stop s)) Hg). reflexivity.
    + rewrite (start_builtin (on_this init (stop s)) Hg). reflexivity.
Qed.

Lemma start_resumes_witness :
  value (this (start (stop (ticks 5 (initCounter "" scenario plain_page)))))
  = value (this (ticks 5 (initCounter "" scenario plain_page))).
Proof.
  destruct (start_resumes (ticks 5 (initCounter "" scenario plain_page)))
    as (H & _).
  destruct H as (Hv & _); [vm_compute; reflexivity | exact Hv].
Defined.

(** C2, as stated, fails without GSAP: after five ticks of the example run
    and a [stop()], [start()] leaves the value at 250 and the tick count at
    5, while [from] is 0. *)
Lemma start_after_stop_keeps_midpoint :
  value (this (start interrupted)) = 250%float
  ∧ loopCount (this (start interrupted)) = 5%nat
  ∧ from (options (this interrupted)) = 0%float
  ∧ gsap (page interrupted) = false
  ∧ ¬ start_reinitializes interrupted.
Proof.
  split_and!; try (vm_compute; reflexivity).
  intros [_ Hc]. vm_compute in Hc. discriminate.
Qed.

(** ** One timer at most *)

Lemma update_timers_subseteq s id :
  id ∈ timers (page (update s)) → id ∈ timers (page s).
Proof.
  rewrite update_timers.
  destruct (JS.count_geb _ _); [|auto].
  destruct (interval (this s)); [|auto]. set_solver.
Qed.


Lemma well_formed_start s : well_formed s → well_formed (start s).
Proof.
  intros (Hinv & Hfresh & Htw).
  pose proof (stop_releases s Hinv) as Hrel.
  destruct (gsap (page s)) eqn:Hg.
  - rewrite (start_gsap s Hg), Hrel. split_and!.
    + intros id Hin. cbn in Hin. set_solver.
    + intros id Hin. cbn in Hin. set_solver.
    + cbn. lia.
  - rewrite (start_builtin s Hg), Hrel. split_and!.
    + intros id Hin. cbn in *. f_equal. set_solver.
    + intros id Hin. cbn in *.
      assert (id = next_timer (page s)) as -> by set_solver. lia.
    + cbn. exact Htw.
Qed.


Lemma well_formed_update s : well_formed s → well_formed (update s).
Proof.
  intros (Hinv & Hfresh & Htw).
  destruct (update_page_rest s) as (Hn & Ht & _).
  split_and!.
  - intros id Hin. rewrite update_interval.
    apply Hinv, update_timers_subseteq, Hin.
  - intros id Hin. rewrite Hn. apply Hfresh, update_timers_subseteq, Hin.
  - rewrite Ht. exact Htw.
Qed.

Lemma well_formed_tick s : well_formed s → well_formed (tick s).
Proof.
  intros Hwf. unfold tick. destruct (interval (this s)); [|exact Hwf].
  destruct (decide _); [apply well_formed_update|]; exact Hwf.
Qed.

Lemma well_formed_page_flag f s :
  (∀ p, timers (f p) = timers p ∧ next_timer (f p) = next_timer p
        ∧ tweens (f p) = tweens p) →
  well_formed s → well_formed (on_page f s).
Proof.
  intros Hf (Hinv & Hfresh & Htw).
  destruct (Hf (page s)) as (Ht & Hn & Hw).
  split_and!.
  - intros id Hin. cbn in *. rewrite Ht in Hin. auto.
  - intros id Hin. cbn in *. rewrite Ht in Hin. rewrite Hn. auto.
  - cbn. rewrite Hw. exact Htw.
Qed.

Lemma well_formed_checkScroll s : well_formed s → well_formed (checkScroll s).
Proof.
  intros Hwf. unfold checkScroll. destruct (in_view _); [|exact Hwf].
  apply well_formed_page_flag; [auto|]. apply well_formed_start, Hwf.
Qed.



Lemma well_formed_construct text0 o p :
  timers p = ∅ → tweens p = 0%nat → well_formed (construct text0 o p).
Proof.
  intros Ht Hw. unfold construct.
  set (s := mkState _ p).
  assert (Hwf : well_formed s).
  { split_and!.
    - apply timer_inv_empty, Ht.
    - intros id Hin. cbn in Hin. rewrite Ht in Hin. set_solver.
    - cbn. lia. }
  destruct (_ && _); [|exact Hwf].
  unfold setupScrollTrigger. destruct (gsap_ScrollTrigger _).
  - apply well_formed_page_flag; [auto | exact Hwf].
  - unfold setupScrollListener.
    apply well_formed_checkScroll, well_formed_page_flag; [auto|].
    apply well_formed_page_flag; [auto | exact Hwf].
Qed.




(** ** The scroll listener *)

Lemma start_listening s : listening (page (start s)) = listening (page s).
Proof.
  destruct (stop_page_rest s) as (_ & _ & Hl & _).
  destruct (gsap (page s)) eqn:Hg;
    [rewrite (start_gsap s Hg) | rewrite (start_builtin s Hg)]; reflexivity.
Qed.

Lemma checkScroll_spec s :
  listening (page s) = true →
  ∃ evs, trace (page (checkScroll s)) = trace (page s) ++ evs
         ∧ count is_started evs
           = (if in_view (layout (page s)) then 1%nat else 0%nat)
         ∧ listening (page (checkScroll s)) = negb (in_view (layout (page s))).
Proof.
  intros Hl. unfold checkScroll. destruct (in_view _).
  - eexists. cbn. rewrite start_trace. split_and!; reflexivity.
  - exists []. rewrite app_nil_r. auto.
Qed.

Lemma scrolls_detached gs : ∀ s,
  listening (page s) = false →
  trace (page (run (map OpScroll gs) s)) = trace (page s)
  ∧ listening (page (run (map OpScroll gs) s)) = false.
Proof.
  induction gs as [|g gs IH]; intros s Hl; [auto|].
  cbn. unfold scroll. cbn. rewrite Hl.
  destruct (IH (on_page (set_layout g) s) Hl) as (Ht & Hl'). auto.
Qed.

Lemma scrolls_attached gs : ∀ s,
  listening (page s) = true →
  ∃ evs, trace (page (run (map OpScroll gs) s)) = trace (page s) ++ evs
         ∧ count is_started evs
           = (if existsb in_view gs then 1%nat else 0%nat)
         ∧ listening (page (run (map OpScroll gs) s))
           = negb (existsb in_view gs).
Proof.
  induction gs as [|g gs IH]; intros s Hl.
  - exists []. rewrite app_nil_r. auto.
  - cbn [map run foldl step]. unfold scroll. cbn [listening page on_page set_layout].
    rewrite Hl.
    destruct (checkScroll_spec (on_page (set_layout g) s) Hl)
      as (evs & Ht & Hc & Hl').
    cbn [layout page on_page set_layout] in Hc, Hl'. cbn [existsb].
    destruct (in_view g); cbn [negb orb] in *.
    + destruct (scrolls_detached gs _ Hl') as (Ht' & Hl'').
      exists evs. unfold run in *. rewrite Ht', Ht. auto.
    + destruct (IH _ Hl') as (evs' & Ht' & Hc' & Hl'').
      exists (evs ++ evs'). unfold run in *.
      rewrite Ht', Ht, <- app_assoc, count_app, Hc, Hc'. auto.
Qed.

(** The listener of a ModernCounter, from [setupScrollListener] on: over
    the initial check and the scroll events [gs], [start()] is entered once
    if some layout satisfies the test and never otherwise, and the listener
    stays attached exactly as long as none did. *)
Lemma listener_fires_once s gs :
  let s' := run (map OpScroll gs) (setupScrollListener s) in
  count is_started (events_since (page s) s')
  = (if existsb in_view (layout (page s) :: gs) then 1%nat else 0%nat)
  ∧ listening (page s') = negb (existsb in_view (layout (page s) :: gs)).
Proof.
  cbn zeta. unfold setupScrollListener.
  set (s1 := on_page (set_listening true) s).
  destruct (checkScroll_spec s1 eq_refl) as (evs & Ht & Hc & Hl).
  change (layout (page s1)) with (layout (page s)) in *.
  change (trace (page s1)) with (trace (page s)) in *.
  cbn [existsb]. destruct (in_view (layout (page s))); cbn [negb orb] in *.
  - destruct (scrolls_detached gs _ Hl) as (Ht' & Hl').
    rewrite (events_since_app (page s) _ evs); [auto|].
    rewrite Ht', Ht. reflexivity.
  - destruct (scrolls_attached gs _ Hl) as (evs' & Ht' & Hc' & Hl').
    rewrite (events_since_app (page s) _ (evs ++ evs'));
      [rewrite count_app, Hc, Hc'; auto|].
    rewrite Ht', Ht, <- app_assoc. reflexivity.
Qed.

End CounterFacts.

(** ** VerticalCounter *)

Module DigitFacts.
Import VerticalCounter.

Lemma digit_count_app f l l' : count f (l ++ l') = (count f l + count f l')%nat.
Proof. unfold count. rewrite List.filter_app, length_app. reflexivity. Qed.

(** [start()] on a built instance: it returns, logs its entry, leaves the
    listener as it is and keeps the instance built. *)
Lemma start_built s ds :
  digitElements (this s) = Some ds →
  ∃ s', start s = Some s'
        ∧ trace (page s') = trace (page s) ++ [Started]
        ∧ listening (page s') = listening (page s)
        ∧ layout (page s') = layout (page s)
        ∧ digitElements (this s')
          = Some (imap (start_digit (duration (options (this s)))) ds)
        ∧ options (this s') = options (this s).
Proof.
  intros Hd. unfold start. rewrite Hd. eexists. split; [reflexivity|].
  cbn. auto 10.
Qed.

Lemma digit_checkScroll_spec s ds :
  digitElements (this s) = Some ds → listening (page s) = true →
  ∃ s' evs, checkScroll s = Some s'
         ∧ is_Some (digitElements (this s'))
         ∧ trace (page s') = trace (page s) ++ evs
         ∧ count is_started evs
           = (if in_view (layout (page s)) then 1%nat else 0%nat)
         ∧ listening (page s') = negb (in_view (layout (page s))).
Proof.
  intros Hd Hl. unfold checkScroll. destruct (in_view _).
  - destruct (start_built s ds Hd) as (s' & -> & Ht & _ & _ & Hd' & _).
    exists (on_page (set_listening false) s'), [Started]. cbn.
    rewrite Hd', Ht. split_and!; eauto.
  - exists s, []. rewrite app_nil_r, Hd. split_and!; eauto.
Qed.

Lemma digit_scrolls_detached gs : ∀ s,
  listening (page s) = false →
  ∃ s', scrolls gs s = Some s'
        ∧ trace (page s') = trace (page s)
        ∧ listening (page s') = false
        ∧ this s' = this s.
Proof.
  induction gs as [|g gs IH]; intros s Hl; [exists s; auto|].
  unfold scrolls in *. cbn. unfold scroll at 2. cbn. rewrite Hl.
  destruct (IH (on_page (set_layout g) s) Hl) as (s' & Hs & Ht & Hl' & Hth).
  exists s'. auto.
Qed.

Lemma digit_scrolls_attached gs : ∀ s,
  is_Some (digitElements (this s)) → listening (page s) = true →
  ∃ s' evs, scrolls gs s = Some s'
         ∧ trace (page s') = trace (page s) ++ evs
         ∧ count is_started evs
           = (if existsb in_view gs then 1%nat else 0%nat)
         ∧ listening (page s') = negb (existsb in_view gs).
Proof.
  induction gs as [|g gs IH]; intros s [ds Hd] Hl.
  - exists s, []. rewrite app_nil_r. auto.
  - unfold scrolls in *. cbn [foldl mbind option_bind].
    unfold scroll at 2. cbn [listening page on_page set_layout]. rewrite Hl.
    destruct (digit_checkScroll_spec (on_page (set_layout g) s) ds Hd Hl)
      as (s1 & evs & -> & Hb & Ht & Hc & Hl').
    cbn [layout trace page on_page set_layout] in Ht, Hc, Hl'. cbn [existsb].
    destruct (in_view g); cbn [negb orb] in *.
    + destruct (digit_scrolls_detached gs s1 Hl') as (s' & Hs & Ht' & Hl'' & _).
      unfold scrolls in Hs. exists s', evs. rewrite Ht', Ht. auto.
    + destruct (IH s1 Hb Hl') as (s' & evs' & Hs & Ht' & Hc' & Hl'').
      exists s', (evs ++ evs').
      rewrite Ht', Ht, <- app_assoc, digit_count_app, Hc, Hc'. auto.
Qed.

(** The listener of a built VerticalCounter, from [setupScrollListener]
    on: nothing throws, and [start()] is entered once if some layout
    satisfies the test and never otherwise. *)
Lemma digit_listener_fires_once s gs :
  is_Some (digitElements (this s)) →
  ∃ s' evs, setupScrollListener s ≫= scrolls gs = Some s'
         ∧ trace (page s') = trace (page s) ++ evs
         ∧ count is_started evs
           = (if existsb in_view (layout (page s) :: gs) then 1%nat else 0%nat)
         ∧ listening (page s')
           = negb (existsb in_view (layout (page s) :: gs)).
Proof.
  intros [ds Hd]. unfold setupScrollListener.
  set (s1 := on_page (set_listening true) s).
  destruct (digit_checkScroll_spec s1 ds Hd eq_refl)
    as (s2 & evs & -> & Hb & Ht & Hc & Hl).
  change (layout (page s1)) with (layout (page s)) in *.
  change (trace (page s1)) with (trace (page s)) in *.
  cbn [mbind option_bind existsb].
  destruct (in_view (layout (page s))); cbn [negb orb] in *.
  - destruct (digit_scrolls_detached gs s2 Hl) as (s' & Hs & Ht' & Hl' & _).
    exists s', evs. rewrite Ht', Ht. auto.
  - destruct (digit_scrolls_attached gs s2 Hb Hl) as (s' & evs' & Hs & Ht' & Hc' & Hl').
    exists s', (evs ++ evs').
    rewrite Ht', Ht, <- app_assoc, digit_count_app, Hc, Hc'. auto.
Qed.

(** *** Building the columns *)

Lemma buildCounter_digits s t :
  to (options (this s)) = Some t →
  digitElements (this (buildCounter s))
  = Some (map (λ c, mkDigit new_strip (digit_value c)) (JS.split t)).
Proof. intros Ht. unfold buildCounter. rewrite Ht. reflexivity. Qed.

Lemma imap_value (f : nat → Digit → Digit) (ds : list Digit) :
  (∀ i x, value (f i x) = value x) → map value (imap f ds) = map value ds.
Proof.
  revert f. induction ds as [|x ds IH]; intros f Hf; [reflexivity|].
  cbn. rewrite Hf, IH; [reflexivity|]. intros i y. apply Hf.
Qed.

(** The constructor on a truthy target returns an instance whose entries
    are, in order, the digits of the code units of the target; they were
    started already if the listener found the element in view at once. *)
Lemma construct_built el g p t :
  to (merge el g) = Some t → truthy_to (Some t) = true →
  ∃ s ds, construct el g p = Some s
          ∧ digitElements (this s) = Some ds
          ∧ options (this s) = merge el g
          ∧ map value ds = map digit_value (JS.split t).
Proof.
  intros Ht Htr. unfold construct. rewrite Ht, Htr. cbn [negb].
  set (s0 := mkState (mkWidget (merge el g) None) p).
  pose proof (buildCounter_digits s0 t Ht) as Hb.
  set (ds := map _ (JS.split t)) in Hb.
  assert (Hv : map value ds = map digit_value (JS.split t)).
  { unfold ds. rewrite map_map. reflexivity. }
  destruct (scrollTrigger (merge el g)).
  - destruct (ScrollTrigger (page (buildCounter s0))).
    + eexists _, ds. split; [reflexivity|]. cbn. auto.
    + unfold setupScrollListener, checkScroll.
      destruct (in_view _).
      * destruct (start_built (on_page (set_listening true) (buildCounter s0)) ds Hb)
          as (s' & -> & _ & _ & _ & Hd' & Ho').
        eexists _, _. split; [reflexivity|]. cbn. rewrite Hd', Ho'.
        split_and!; [reflexivity | reflexivity |].
        rewrite <- Hv. apply imap_value. reflexivity.
      * eexists _, ds. split; [reflexivity|]. cbn. auto.
  - eexists _, ds. split; [reflexivity|]. cbn. auto.
Qed.

(** [start()] gives column [i] the transition of the configured duration
    delayed by [i * 0.1] seconds, puts its strip back to the top, and
    leaves its digit as it is. *)
Lemma start_column s ds i x :
  digitElements (this s) = Some ds → ds !! i = Some x →
  ∃ s' ds', start s = Some s'
            ∧ digitElements (this s') = Some ds'
            ∧ length ds' = length ds
            ∧ ds' !! i
              = Some (mkDigit
                        (mkStrip (numbers (strip x))
                           (Some (mkTransition (duration (options (this s)))
                                    (stagger i)))
                           (Some 0%nat) (S (handlers (strip x))))
                        (value x)).
Proof.
  intros Hd Hx. destruct (start_built s ds Hd) as (s' & Hs & _ & _ & _ & Hd' & _).
  exists s', (imap (start_digit (duration (options (this s)))) ds).
  split_and!; [exact Hs | exact Hd' | apply length_imap |].
  rewrite list_lookup_imap, Hx. reflexivity.
Qed.

(** The delays of the first four columns grow strictly. *)
Lemma stagger_increasing_4 i j :
  (i < j)%nat → (j < 4)%nat →
  PrimFloat.ltb (stagger i) (stagger j) = true.
Proof.
  intros Hij Hj.
  destruct j as [|[|[|[|j]]]]; try lia;
    destruct i as [|[|[|i]]]; try lia; vm_compute; reflexivity.
Qed.

(** C7. Whatever the page and wherever the target comes from, a
    VerticalCounter whose merged target is ["4562"] is constructed with
    exactly four entries whose digits are 4, 5, 6, 2 in the order of the
    string.  [start()] then gives the column of index [i] the delay
    [i * 0.1] seconds, that is 0, 0.1, 0.2 and 0.30000000000000004, and
    these delays grow strictly with the index. *)
Theorem digit_columns_4562 el g p :
  to (merge el g) = Some "4562"%string →
  ∃ s ds s' ds',
    construct el g p = Some s
    ∧ digitElements (this s) = Some ds
    ∧ length ds = 4%nat
    ∧ map value ds = [4; 5; 6; 2]%nat
    ∧ start s = Some s'
    ∧ digitElements (this s') = Some ds'
    ∧ map value ds' = [4; 5; 6; 2]%nat
    ∧ map (λ x, transition_delay <$> transition (strip x)) ds'
      = map (λ i, Some (JS.of_nat i * 0.1)%float) [0; 1; 2; 3]%nat
    ∧ map (λ x, transition_delay <$> transition (strip x)) ds'
      = [Some 0; Some 0.1; Some 0.2; Some 0.30000000000000004]%float
    ∧ (∀ i j, (i < j)%nat → (j < 4)%nat →
         PrimFloat.ltb (stagger i) (stagger j) = true).
Proof.
  intros Ht.
  destruct (construct_built el g p "4562" Ht eq_refl) as (s & ds & Hc & Hd & Ho & Hv).
  destruct (start_built s ds Hd) as (s' & Hs & _ & _ & _ & Hd' & _).
  exists s, ds, s', (imap (start_digit (duration (options (this s)))) ds).
  assert (Hlen : length ds = 4%nat).
  { rewrite <- (length_map value), Hv. reflexivity. }
  assert (Hdel : map (λ x, transition_delay <$> transition (strip x))
                   (imap (start_digit (duration (options (this s)))) ds)
                 = map (λ i, Some (JS.of_nat i * 0.1)%float) [0; 1; 2; 3]%nat).
  { destruct ds as [|a [|b [|c [|d [|e ds]]]]]; try discriminate Hlen.
    reflexivity. }
  split_and!; try assumption.
  - rewrite imap_value; [exact Hv | reflexivity].
  - apply stagger_increasing_4.
Qed.

Lemma digit_columns_4562_witness :
  ∃ s ds, construct target_4562 no_options (fresh_page false (layout_at 900)) = Some s
          ∧ digitElements (this s) = Some ds
          ∧ map value ds = [4; 5; 6; 2]%nat.
Proof.
  destruct (digit_columns_4562 target_4562 no_options
              (fresh_page false (layout_at 900)) eq_refl)
    as (s & ds & _ & _ & Hc & Hd & _ & Hv & _).
  exists s, ds. auto.
Defined.

(** C8. Without a [to] option and without a [data-to] attribute the
    constructor returns normally; all it does is log the error.  The
    instance has no [digitElements], nothing is scheduled, no listener is
    attached and no ScrollTrigger is registered. *)
Theorem construct_without_target el g p :
  given_to g = None → data_to el = None →
  ∃ s, construct el g p = Some s
       ∧ digitElements (this s) = None
       ∧ timeouts (page s) = timeouts p
       ∧ listening (page s) = listening p
       ∧ scroll_triggers (page s) = scroll_triggers p
       ∧ trace (page s) = trace p ++ [ConsoleError error_message]
       ∧ count is_started (trace (page s)) = count is_started (trace p).
Proof.
  intros Hg Hd. unfold construct.
  assert (Ht : to (merge el g) = None).
  { unfold merge. cbn. rewrite Hg, Hd. reflexivity. }
  rewrite Ht. cbn [truthy_to negb]. eexists. split; [reflexivity|].
  cbn [this page on_page emit digitElements timeouts listening
       scroll_triggers trace].
  split_and!; try reflexivity.
  rewrite digit_count_app. cbn. lia.
Qed.

Lemma construct_without_target_witness :
  ∃ s, construct no_target no_options (fresh_page false (layout_at 0)) = Some s
       ∧ digitElements (this s) = None
       ∧ timeouts (page s) = [].
Proof.
  destruct (construct_without_target no_target no_options
              (fresh_page false (layout_at 0)) eq_refl eq_refl)
    as (s & Hc & Hd & Ht & _).
  exists s. auto.
Defined.

End DigitFacts.

(** ** The scroll listener of both classes *)

(** C9. In a viewport 1000 pixels high the test of the listener fails with
    the top of the element at 900 (90%) and holds at 750 (75%) and at 800
    (80%).  For a ModernCounter and for a built VerticalCounter alike, from
    [setupScrollListener] on and over any scroll events: [start()] is
    entered exactly once if the initial check or some event finds the test
    satisfied, and not at all otherwise; the listener is attached afterwards
    exactly if no layout satisfied the test, so once it has fired no later
    event reaches it. *)
Theorem scroll_listener_fires_once :
  in_view (layout_at 900) = false
  ∧ in_view (layout_at 750) = true
  ∧ in_view (layout_at 800) = true
  ∧ (∀ (s : ModernCounter.State) (gs : list Geometry),
       let s' := ModernCounter.run (map ModernCounter.OpScroll gs)
                   (ModernCounter.setupScrollListener s) in
       let fired :=
         existsb in_view (ModernCounter.layout (ModernCounter.page s) :: gs) in
       ModernCounter.count ModernCounter.is_started
         (ModernCounter.events_since (ModernCounter.page s) s')
       = (if fired then 1%nat else 0%nat)
       ∧ ModernCounter.listening (ModernCounter.page s') = negb fired)
  ∧ (∀ (s : VerticalCounter.State) (gs : list Geometry),
       is_Some (VerticalCounter.digitElements (VerticalCounter.this s)) →
       let fired :=
         existsb in_view (VerticalCounter.layout (VerticalCounter.page s) :: gs) in
       ∃ s' evs,
         VerticalCounter.setupScrollListener s ≫= VerticalCounter.scrolls gs
         = Some s'
         ∧ VerticalCounter.trace (VerticalCounter.page s')
           = VerticalCounter.trace (VerticalCounter.page s) ++ evs
         ∧ VerticalCounter.count VerticalCounter.is_started evs
           = (if fired then 1%nat else 0%nat)
         ∧ VerticalCounter.listening (VerticalCounter.page s') = negb fired).
Proof.
  split_and!.
  - vm_compute. reflexivity.
  - vm_compute. reflexivity.
  - vm_compute. reflexivity.
  - intros s gs. apply CounterFacts.listener_fires_once.
  - intros s gs Hb. apply DigitFacts.digit_listener_fires_once, Hb.
Qed.

Lemma scroll_listener_fires_once_witness :
  ModernCounter.count ModernCounter.is_started
    (ModernCounter.events_since ModernCounter.plain_page
       (ModernCounter.run
          (map ModernCounter.OpScroll [layout_at 900; layout_at 750; layout_at 700])
          (ModernCounter.setupScrollListener
             (ModernCounter.construct "" ModernCounter.scenario
                ModernCounter.plain_page))))
  = 1%nat.
Proof.
  destruct scroll_listener_fires_once as (_ & _ & _ & H & _).
  destruct (H (ModernCounter.construct "" ModernCounter.scenario
                 ModernCounter.plain_page)
              [layout_at 900; layout_at 750; layout_at 700]) as (Hc & _).
  exact Hc.
Defined.

(** * Further properties of the code *)

(** ** ModernCounter: the course of a run *)

Module CounterRuns.
Import ModernCounter CounterFacts.

Lemma well_formed_ticks k s : well_formed s → well_formed (ticks k s).
Proof.
  intros Hwf. induction k as [|k IH]; [exact Hwf|].
  change (ticks (S k) s) with (tick (ticks k s)). apply well_formed_tick, IH.
Qed.

(** A fresh instance on a page where it owns nothing is well formed, and so
    is the run it starts. *)
Lemma well_formed_initCounter text0 o p :
  timers p = ∅ → tweens p = 0%nat → well_formed (initCounter text0 o p).
Proof.
  intros Ht Hw. apply well_formed_start, well_formed_construct; assumption.
Qed.

(** Ticks that do not reach [loops]: the timer stays live, the count grows
    by one per tick, and the completion hook is not called. *)
Lemma ticks_unfinished k : ∀ s,
  running s →
  (∀ j, (1 <= j <= k)%nat →
     JS.count_geb (loopCount (this s) + j) (loops (this s)) = false) →
  let s' := ticks k s in
  running s' ∧ advanced s k s'
  ∧ (∃ evs, trace (page s') = trace (page s) ++ evs
            ∧ count is_complete evs = 0%nat).
Proof.
  induction k as [|k IH]; intros s Hrun Hj; cbn zeta.
  - split_and!; auto using advanced_refl.
    exists []. rewrite app_nil_r. auto.
  - destruct (IH s Hrun) as (Hrun' & Hadv & evs & Htr & Hcmp).
    { intros j Hjk. apply Hj. lia. }
    change (ticks (S k) s) with (tick (ticks k s)).
    set (s' := ticks k s) in *.
    rewrite (tick_running s' Hrun').
    assert (Hgeb : JS.count_geb (S (loopCount (this s'))) (loops (this s')) = false).
    { rewrite (adv_loops _ _ _ Hadv), (adv_loopCount _ _ _ Hadv).
      replace (S (loopCount (this s) + k)) with (loopCount (this s) + S k)%nat by lia.
      apply Hj. lia. }
    split_and!.
    + destruct Hrun' as (id & Hi & Hin). exists id.
      rewrite update_interval, update_timers, Hgeb. auto.
    + apply (advanced_trans s k s' 1 (update s') Hadv (update_advanced s')).
    + exists (evs ++ update_events s'). rewrite update_trace, Htr, <- app_assoc.
      split; [reflexivity|]. rewrite count_app, Hcmp.
      destruct (update_events_counts s') as (_ & _ & ->). rewrite Hgeb. reflexivity.
Qed.

(** No tick count reaches NaN or positive infinity. *)
Lemma count_geb_unreachable (x : float) :
  Prim2SF x = S754_nan ∨ Prim2SF x = S754_infinity false →
  ∀ k, JS.count_geb k x = false.
Proof. intros [H|H] k; unfold JS.count_geb; rewrite H; reflexivity. Qed.

(** C4, as stated for every run, fails where [totalTicks] is no integer.
    With [refreshInterval = 0] the division gives positive infinity, which
    no tick count reaches: the run begun by [start()] is still running
    after any number of ticks, and the completion hook, although set, has
    not been called once but never. *)
Lemma completion_hook_never_called :
  gsap plain_page = false
  ∧ onComplete endless = true
  ∧ JS.float_int (JS.Math_ceil (speed endless / refreshInterval endless)%float)
    = None
  ∧ (∀ k, running (ticks k (initCounter "" endless plain_page))
          ∧ count is_complete
              (events_since plain_page
                 (ticks k (initCounter "" endless plain_page))) = 0%nat)
  ∧ ¬ (∃ k, count is_complete
              (events_since plain_page
                 (ticks k (initCounter "" endless plain_page))) = 1%nat).
Proof.
  assert (H : ∀ k, running (ticks k (initCounter "" endless plain_page))
                   ∧ count is_complete
                       (events_since plain_page
                          (ticks k (initCounter "" endless plain_page))) = 0%nat).
  { intros k.
    destruct (initCounter_builtin "" endless plain_page eq_refl eq_refl)
      as (Hrun & _ & _ & Hl & _ & _ & _ & Htr).
    set (s0 := initCounter "" endless plain_page) in *.
    destruct (ticks_unfinished k s0 Hrun) as (Hrun' & _ & evs & Hevs & Hcmp).
    { intros j _. rewrite Hl. apply count_geb_unreachable.
      right. vm_compute. reflexivity. }
    split; [exact Hrun'|].
    erewrite events_since_app; [|rewrite Hevs, Htr, <- app_assoc; reflexivity].
    rewrite count_app, Hcmp. reflexivity. }
  split_and!; [reflexivity | reflexivity | vm_compute; reflexivity | exact H |].
  intros (k & Hk). destruct (H k) as (_ & H0). rewrite H0 in Hk. discriminate.
Qed.

(** X1. The code does not guard the division [speed / refreshInterval]: when
    it yields NaN or positive infinity (as for [refreshInterval = 0]),
    [loopCount >= loops] never holds, so on the built-in timer the run never
    ends: after any number of ticks the timer is still live, the tick count
    equals the number of ticks, the update hook has run on every tick and
    the completion hook has not been called. *)
Theorem run_never_completes text0 (o : Options) p (k : nat) :
  gsap p = false → timers p = ∅ →
  Prim2SF (JS.Math_ceil (speed o / refreshInterval o)%float) = S754_nan
  ∨ Prim2SF (JS.Math_ceil (speed o / refreshInterval o)%float)
    = S754_infinity false →
  let s := ticks k (initCounter text0 o p) in
  running s
  ∧ loopCount (this s) = k
  ∧ count is_complete (events_since p s) = 0%nat
  ∧ count is_update (events_since p s) = (if onUpdate o then k else 0%nat).
Proof.
  intros Hg Ht Hinf s.
  destruct (initCounter_builtin text0 o p Hg Ht)
    as (Hrun & Hinv & Ho & Hl & Hi & Hc & Hv & Htr).
  set (s0 := initCounter text0 o p) in *.
  destruct (ticks_unfinished k s0 Hrun) as (Hrun' & Hadv & evs & Hevs & Hcmp).
  { intros j _. rewrite Hl. apply count_geb_unreachable, Hinf. }
  fold s in Hrun', Hadv, Hevs.
  destruct (adv_trace _ _ _ Hadv) as (evs' & Hevs' & _ & Hu).
  assert (He : evs' = evs).
  { apply (app_inv_head (trace (page s0))). rewrite <- Hevs', Hevs. reflexivity. }
  subst evs'.
  assert (Hsince : events_since p s = [Started; Render (formatter o (from o) o)] ++ evs).
  { apply events_since_app. rewrite Hevs, Htr, <- app_assoc. reflexivity. }
  split_and!.
  - exact Hrun'.
  - rewrite (adv_loopCount _ _ _ Hadv), Hc. reflexivity.
  - rewrite Hsince, count_app, Hcmp. reflexivity.
  - rewrite Hsince, count_app, Hu, Ho. reflexivity.
Qed.

Lemma run_never_completes_witness :
  loopCount (this (ticks 30 (initCounter "" endless plain_page))) = 30%nat
  ∧ count is_complete (events_since plain_page (ticks 30 (initCounter "" endless plain_page)))
    = 0%nat.
Proof.
  destruct (run_never_completes "" endless plain_page 30 eq_refl eq_refl)
    as (_ & Hc & Hn & _); [right; vm_compute; reflexivity | auto].
Defined.

(** X2. [totalTicks <= 1] is not rejected either: when the division yields
    an integer below 2 (zero for [speed = 0], negative for a negative
    duration), the very first tick ends the run.  The update hook is called
    once, with [from + (to - from) / totalTicks] (an infinity or NaN when
    [totalTicks] is 0), the value is then forced to [to], and the completion
    hook follows. *)
Theorem single_tick_run text0 (o : Options) p (z : Z) :
  gsap p = false → timers p = ∅ →
  JS.float_int (JS.Math_ceil (speed o / refreshInterval o)%float) = Some z →
  z <= 1 →
  let s1 := ticks 1 (initCounter text0 o p) in
  let v := (from o + (to o - from o) / JS.Math_ceil (speed o / refreshInterval o))%float in
  timers (page s1) = ∅
  ∧ value (this s1) = to o
  ∧ loopCount (this s1) = 1%nat
  ∧ events_since p s1
    = [Started; Render (formatter o (from o) o); Render (formatter o v o)]
      ++ (if onUpdate o then [OnUpdate v] else [])
      ++ Render (formatter o (to o) o)
         :: (if onComplete o then [OnComplete (to o)] else []).
Proof.
  intros Hg Ht Hz Hle s1 v.
  destruct (initCounter_builtin text0 o p Hg Ht)
    as (Hrun & Hinv & Ho & Hl & Hi & Hc & Hv & Htr).
  set (s0 := initCounter text0 o p) in *.
  destruct (tick_completes s0 z Hrun Hinv) as (Hts & Hadv & Hval & _ & Htr' & Hgeb).
  { rewrite Hl. exact Hz. }
  { rewrite Hc. lia. }
  change (tick s0) with s1 in *.
  split_and!.
  - exact Hts.
  - rewrite Hval, Ho. reflexivity.
  - rewrite (adv_loopCount _ _ _ Hadv), Hc. reflexivity.
  - apply events_since_app. rewrite Htr', Htr.
    unfold update_events. rewrite Hgeb, Ho, Hv, Hi.
    rewrite <- !app_assoc. reflexivity.
Qed.

Lemma single_tick_run_witness :
  events_since plain_page (ticks 1 (initCounter "" instant plain_page))
  = [Started; Render "0"; Render "?"; OnUpdate infinity; Render "10";
     OnComplete 10%float].
Proof.
  destruct (single_tick_run "" instant plain_page 0 eq_refl eq_refl)
    as (_ & _ & _ & H); [vm_compute; reflexivity | lia | exact H].
Defined.

(** X3. With [totalTicks] an integer [n >= 1], the tick count of a fresh run
    after [m] timer slots is [min m n]: it grows by one per tick and stops at
    [totalTicks], and the timer is released exactly from slot [n] on. *)
Theorem tick_count text0 (o : Options) p (n m : nat) :
  gsap p = false → timers p = ∅ →
  JS.float_int (JS.Math_ceil (speed o / refreshInterval o)%float)
  = Some (Z.of_nat n) →
  (1 <= n)%nat →
  let s := ticks m (initCounter text0 o p) in
  loopCount (this s) = Nat.min m n
  ∧ (timers (page s) = ∅ ↔ (n <= m)%nat).
Proof.
  intros Hg Ht Hz Hn s.
  destruct (initCounter_builtin text0 o p Hg Ht)
    as (Hrun & Hinv & Ho & Hl & Hi & Hc & Hv & Htr).
  set (s0 := initCounter text0 o p) in *.
  assert (Hz' : JS.float_int (loops (this s0)) = Some (Z.of_nat n))
    by (rewrite Hl; exact Hz).
  destruct (run_completes s0 (Z.of_nat n) Hrun Hinv Hz')
    as (Hbefore & Hts & Hadv & _ & _ & Hafter & _).
  rewrite (remaining_fresh n s0 Hc Hn) in *.
  destruct (Nat.lt_ge_cases m n) as [Hlt|Hge].
  - destruct (ticks_before m s0 (Z.of_nat n) Hrun Hz') as (Hr & Hadv' & _).
    { rewrite Hc. lia. }
    fold s in Hr, Hadv'. split.
    + rewrite (adv_loopCount _ _ _ Hadv'), Hc. lia.
    + split; [intros He; exfalso; exact (running_not_released s Hr He) | lia].
  - unfold s. rewrite (Hafter m Hge). split.
    + rewrite (adv_loopCount _ _ _ Hadv), Hc. lia.
    + split; [intros _; exact Hge | intros _; exact Hts].
Qed.

Lemma tick_count_witness :
  loopCount (this (ticks 7 (initCounter "" scenario plain_page))) = 7%nat
  ∧ loopCount (this (ticks 45 (initCounter "" scenario plain_page))) = 20%nat.
Proof.
  split.
  - apply (tick_count "" scenario plain_page 20 7 eq_refl eq_refl);
      [vm_compute; reflexivity | lia].
  - apply (tick_count "" scenario plain_page 20 45 eq_refl eq_refl);
      [vm_compute; reflexivity | lia].
Defined.

(** *** Whether GSAP is present never changes *)

Lemma gsap_start s : gsap (page (start s)) = gsap (page s).
Proof.
  destruct (gsap (page s)) eqn:Hg;
    [rewrite (start_gsap s Hg) | rewrite (start_builtin s Hg)]; exact Hg.
Qed.

Lemma gsap_stop s : gsap (page (stop s)) = gsap (page s).
Proof. apply stop_page_rest. Qed.

Lemma gsap_tick s : gsap (page (tick s)) = gsap (page s).
Proof.
  unfold tick. destruct (interval (this s)); [|reflexivity].
  destruct (decide _); [apply update_page_rest | reflexivity].
Qed.

Lemma gsap_ticks k s : gsap (page (ticks k s)) = gsap (page s).
Proof.
  induction k as [|k IH]; [reflexivity|].
  change (ticks (S k) s) with (tick (ticks k s)). rewrite gsap_tick. exact IH.
Qed.

Lemma gsap_step op s : gsap (page (step op s)) = gsap (page s).
Proof.
  destruct op; cbn.
  - apply gsap_start.
  - apply gsap_stop.
  - unfold restart. rewrite gsap_start. cbn. apply gsap_stop.
  - unfold toggle. destruct (interval (this s)); [apply gsap_stop | apply gsap_start].
  - apply gsap_tick.
  - unfold scroll. cbn. destruct (listening (page s)); [|reflexivity].
    unfold checkScroll. destruct (in_view _); [|reflexivity].
    cbn. rewrite gsap_start. reflexivity.
Qed.

Lemma gsap_initCounter text0 o p : gsap (page (initCounter text0 o p)) = gsap p.
Proof.
  unfold initCounter. rewrite gsap_start. unfold construct.
  destruct (_ && _); [|reflexivity].
  unfold setupScrollTrigger. destruct (gsap_ScrollTrigger _); [reflexivity|].
  unfold setupScrollListener, checkScroll. destruct (in_view _); [|reflexivity].
  cbn. rewrite gsap_start. reflexivity.
Qed.

(** *** Pausing, resuming, restarting *)

(** A run resumed by [start()] from a state that is not running. *)
Lemma resumed_run s (n : nat) :
  gsap (page s) = false → timer_inv s →
  JS.float_int (loops (this s)) = Some (Z.of_nat n) →
  (loopCount (this s) < n)%nat →
  let r := (n - loopCount (this s))%nat in
  let s1 := start s in
  (∀ j, (j < r)%nat →
     running (ticks j s1)
     ∧ value (this (ticks j s1))
       = Nat.iter j (λ v, (v + increment (this s))%float) (value (this s)))
  ∧ timers (page (ticks r s1)) = ∅
  ∧ value (this (ticks r s1)) = to (options (this s))
  ∧ loopCount (this (ticks r s1)) = n
  ∧ (∀ m, (r <= m)%nat → ticks m s1 = ticks r s1)
  ∧ (∃ evs, trace (page (ticks r s1))
            = trace (page s) ++ evs
              ++ (if onComplete (options (this s))
                  then [OnComplete (to (options (this s)))] else [])
            ∧ count is_complete evs = 0%nat
            ∧ count is_update evs
              = (if onUpdate (options (this s)) then r else 0%nat)
            ∧ count is_started evs = 1%nat).
Proof.
  intros Hg Hinv Hz Hlt r s1.
  destruct (start_running s Hg Hinv) as (Hrun & Hinv1 & _).
  destruct (start_keeps s Hg) as (Ho & Hl & Hi & Hc & Hv).
  fold s1 in Hrun, Hinv1, Ho, Hl, Hi, Hc, Hv.
  assert (Htr1 : trace (page s1)
                 = trace (page s)
                   ++ [Started;
                       Render (formatter (options (this s)) (value (this s))
                                 (options (this s)))])
    by apply start_trace.
  assert (Hz1 : JS.float_int (loops (this s1)) = Some (Z.of_nat n))
    by (rewrite Hl; exact Hz).
  assert (Hr : remaining (Z.of_nat n) s1 = r)
    by (unfold r, remaining; rewrite Hc; lia).
  destruct (run_completes s1 (Z.of_nat n) Hrun Hinv1 Hz1)
    as (Hbefore & Hts & Hadv & Hval & _ & Hafter & evs & Hevs & Hcmp).
  rewrite Hr in *. rewrite Ho in Hevs, Hval.
  split_and!.
  - intros j Hj. destruct (Hbefore j Hj) as (Hrj & Hvj & _).
    rewrite Hi, Hv in Hvj. auto.
  - exact Hts.
  - exact Hval.
  - rewrite (adv_loopCount _ _ _ Hadv), Hc. unfold r. lia.
  - exact Hafter.
  - destruct (adv_trace _ _ _ Hadv) as (evs' & Hevs' & Hst & Hu).
    assert (He : evs' = evs ++ (if onComplete (options (this s))
                                then [OnComplete (to (options (this s)))] else [])).
    { apply (app_inv_head (trace (page s1))). rewrite <- Hevs'. exact Hevs. }
    rewrite He, count_app in Hu, Hst. rewrite Ho in Hu.
    exists ([Started; Render (formatter (options (this s)) (value (this s))
                                (options (this s)))] ++ evs).
    split_and!.
    + rewrite Hevs, Htr1, <- !app_assoc. reflexivity.
    + rewrite count_app, Hcmp. reflexivity.
    + rewrite count_app. cbn [count List.filter is_update length Nat.add app].
      destruct (onComplete (options (this s))); cbn in Hu; lia.
    + rewrite count_app. cbn [count List.filter is_started length Nat.add app].
      destruct (onComplete (options (this s))); cbn in Hst; lia.
Qed.

(** X4. Pausing costs nothing.  If a fresh run with [totalTicks = n >= 1] is
    stopped after [k < n] ticks and started again, it resumes at tick [k]:
    after [j] more ticks the value is [from] with the delta added [k + j]
    times, the run ends after [n - k] more ticks with the value exactly [to]
    and the tick count [n], and over the whole history the update hook has
    been called [n] times and the completion hook once. *)
Theorem pause_resume text0 (o : Options) p (n k : nat) :
  gsap p = false → timers p = ∅ →
  JS.float_int (JS.Math_ceil (speed o / refreshInterval o)%float)
  = Some (Z.of_nat n) →
  (k < n)%nat →
  let delta :=
    ((to o - from o) / JS.Math_ceil (speed o / refreshInterval o))%float in
  let s1 := start (stop (ticks k (initCounter text0 o p))) in
  let sf := ticks (n - k) s1 in
  (∀ j, (j < n - k)%nat →
     running (ticks j s1)
     ∧ value (this (ticks j s1))
       = Nat.iter (j + k) (λ v, (v + delta)%float) (from o))
  ∧ timers (page sf) = ∅
  ∧ value (this sf) = to o
  ∧ loopCount (this sf) = n
  ∧ count is_update (events_since p sf) = (if onUpdate o then n else 0%nat)
  ∧ count is_complete (events_since p sf) = (if onComplete o then 1%nat else 0%nat)
  ∧ count is_started (events_since p sf) = 2%nat.
Proof.
  intros Hg Ht Hz Hk delta s1 sf. subst sf s1.
  destruct (initCounter_builtin text0 o p Hg Ht)
    as (Hrun & Hinv & Ho & Hl & Hi & Hc & Hv & Htr).
  set (s0 := initCounter text0 o p) in *.
  assert (Hz' : JS.float_int (loops (this s0)) = Some (Z.of_nat n))
    by (rewrite Hl; exact Hz).
  destruct (ticks_before k s0 (Z.of_nat n) Hrun Hz')
    as (HrunA & HadvA & HtmA & HvalA & evsA & HtrA & HcmpA).
  { rewrite Hc. lia. }
  set (A := ticks k s0) in *.
  assert (HinvA : timer_inv A).
  { intros id Hin. rewrite HtmA in Hin. rewrite (adv_interval _ _ _ HadvA). auto. }
  set (B := stop A).
  assert (HBthis : this B = set_interval None (this A)) by apply stop_this.
  assert (HBtr : trace (page B) = trace (page A)) by apply stop_trace.
  assert (HBg : gsap (page B) = false).
  { unfold B, A. rewrite gsap_stop, gsap_ticks. unfold s0.
    rewrite gsap_initCounter. exact Hg. }
  assert (HBinv : timer_inv B) by (apply timer_inv_empty, stop_releases, HinvA).
  assert (HBo : options (this B) = o) by (rewrite HBthis; cbn; rewrite (adv_options _ _ _ HadvA); exact Ho).
  assert (HBl : loops (this B) = loops (this s0)) by (rewrite HBthis; cbn; apply (adv_loops _ _ _ HadvA)).
  assert (HBi : increment (this B) = delta) by (rewrite HBthis; cbn; rewrite (adv_increment _ _ _ HadvA); exact Hi).
  assert (HBc : loopCount (this B) = k) by (rewrite HBthis; cbn; rewrite (adv_loopCount _ _ _ HadvA), Hc; reflexivity).
  assert (HBv : value (this B) = Nat.iter k (λ v, (v + delta)%float) (from o)).
  { rewrite HBthis. cbn. rewrite HvalA, Hi, Hv. reflexivity. }
  destruct (resumed_run B n HBg HBinv) as (Hbefore & Hts & Hval & Hcnt & _ & evs & Hevs & Hcmp & Hup & Hst).
  { rewrite HBl. exact Hz'. }
  { rewrite HBc. exact Hk. }
  rewrite HBc, HBo, HBi, HBv in *.
  destruct (adv_trace _ _ _ HadvA) as (evsA' & HtrA' & HstA & HupA).
  assert (He : evsA' = evsA).
  { apply (app_inv_head (trace (page s0))). rewrite <- HtrA', HtrA. reflexivity. }
  subst evsA'. rewrite Ho in HupA.
  assert (Hsince : events_since p (ticks (n - k) (start B))
                   = [Started; Render (formatter o (from o) o)] ++ evsA ++ evs
                     ++ (if onComplete o then [OnComplete (to o)] else [])).
  { apply events_since_app.
    rewrite Hevs, HBtr, HtrA, Htr, <- !app_assoc. reflexivity. }
  split_and!.
  - intros j Hj. destruct (Hbefore j Hj) as (Hrj & Hvj). split; [exact Hrj|].
    rewrite Hvj. symmetry. apply Nat.iter_add.
  - exact Hts.
  - exact Hval.
  - exact Hcnt.
  - rewrite Hsince, !count_app, HupA, Hup.
    destruct (onUpdate o), (onComplete o); cbn; lia.
  - rewrite Hsince, !count_app, HcmpA, Hcmp.
    destruct (onComplete o); reflexivity.
  - rewrite Hsince, !count_app, HstA, Hst.
    destruct (onComplete o); reflexivity.
Qed.

Lemma pause_resume_witness :
  value (this (ticks 15 (start (stop (ticks 5 (initCounter "" scenario plain_page))))))
  = 1000%float
  ∧ count is_update
      (events_since plain_page
         (ticks 15 (start (stop (ticks 5 (initCounter "" scenario plain_page))))))
    = 20%nat.
Proof.
  destruct (pause_resume "" scenario plain_page 20 5 eq_refl eq_refl)
    as (_ & _ & Hv & _ & Hu & _); [vm_compute; reflexivity | lia | auto].
Defined.

(** X5. [restart()] begins afresh whatever happened before.  From any
    well-formed state on a page without GSAP, with [totalTicks] of the
    options an integer [n >= 1], the restarted counter has the tick count 0
    and the value [from], it goes through the values of a fresh run, and it
    ends after exactly [n] ticks with the value [to]. *)
Theorem restart_runs_afresh s (n : nat) :
  let o := options (this s) in
  let delta :=
    ((to o - from o) / JS.Math_ceil (speed o / refreshInterval o))%float in
  gsap (page s) = false → timer_inv s →
  JS.float_int (JS.Math_ceil (speed o / refreshInterval o)%float)
  = Some (Z.of_nat n) →
  (1 <= n)%nat →
  running (restart s)
  ∧ loopCount (this (restart s)) = 0%nat
  ∧ (∀ k, (k < n)%nat →
       running (ticks k (restart s))
       ∧ value (this (ticks k (restart s)))
         = Nat.iter k (λ v, (v + delta)%float) (from o))
  ∧ timers (page (ticks n (restart s))) = ∅
  ∧ value (this (ticks n (restart s))) = to o
  ∧ loopCount (this (ticks n (restart s))) = n.
Proof.
  intros o delta Hg Hinv Hz Hn. unfold restart.
  set (B := on_this init (stop s)).
  assert (HBthis : this B = init (set_interval None (this s)))
    by (unfold B; cbn; rewrite stop_this; reflexivity).
  assert (HBg : gsap (page B) = false) by (unfold B; cbn; rewrite gsap_stop; exact Hg).
  assert (HBinv : timer_inv B).
  { apply timer_inv_empty. unfold B. cbn. apply stop_releases, Hinv. }
  destruct (start_running B HBg HBinv) as (Hrun & _).
  destruct (start_keeps B HBg) as (_ & _ & _ & Hc & _).
  destruct (resumed_run B n HBg HBinv) as (Hbefore & Hts & Hval & Hcnt & _).
  { rewrite HBthis. exact Hz. }
  { rewrite HBthis. cbn. lia. }
  rewrite HBthis in Hbefore, Hts, Hval, Hcnt, Hc. cbn in Hbefore, Hts, Hval, Hcnt, Hc.
  rewrite Nat.sub_0_r in *.
  split_and!; [exact Hrun | exact Hc | exact Hbefore | exact Hts | exact Hval | exact Hcnt].
Qed.

Lemma restart_runs_afresh_witness :
  value (this (ticks 20 (restart (ticks 13 (initCounter "" scenario plain_page)))))
  = 1000%float
  ∧ loopCount (this (restart (ticks 13 (initCounter "" scenario plain_page)))) = 0%nat.
Proof.
  destruct (restart_runs_afresh (ticks 13 (initCounter "" scenario plain_page)) 20)
    as (_ & Hc & _ & _ & Hv & _);
    [vm_compute; reflexivity | apply well_formed_ticks, well_formed_initCounter; reflexivity
     | vm_compute; reflexivity | lia | auto].
Defined.

(** X6. [update] clears the timer at the end of a run but leaves the handle
    in [this.interval], and [start()] does not re-initialise.  So, after a
    fresh run with [totalTicks = n >= 1] has completed: [start()] schedules a
    run of a single tick, on which the update hook receives the overshoot
    [to + delta] before the value is forced back to [to], the completion hook
    is called again, and the tick count ends at [n + 1], above
    [totalTicks]. *)
Theorem start_after_completion text0 (o : Options) p (n : nat) :
  gsap p = false → timers p = ∅ →
  JS.float_int (JS.Math_ceil (speed o / refreshInterval o)%float)
  = Some (Z.of_nat n) →
  (1 <= n)%nat →
  let delta :=
    ((to o - from o) / JS.Math_ceil (speed o / refreshInterval o))%float in
  let sf := ticks n (initCounter text0 o p) in
  let s2 := ticks 1 (start sf) in
  is_Some (interval (this sf))
  ∧ running (start sf)
  ∧ timers (page s2) = ∅
  ∧ value (this s2) = to o
  ∧ loopCount (this s2) = S n
  ∧ events_since (page sf) s2
    = [Started; Render (formatter o (to o) o);
       Render (formatter o (to o + delta)%float o)]
      ++ (if onUpdate o then [OnUpdate (to o + delta)%float] else [])
      ++ Render (formatter o (to o) o)
         :: (if onComplete o then [OnComplete (to o)] else []).
Proof.
  intros Hg Ht Hz Hn delta sf s2. subst s2 sf.
  destruct (initCounter_builtin text0 o p Hg Ht)
    as (Hrun & Hinv & Ho & Hl & Hi & Hc & Hv & Htr).
  set (s0 := initCounter text0 o p) in *.
  assert (Hz' : JS.float_int (loops (this s0)) = Some (Z.of_nat n))
    by (rewrite Hl; exact Hz).
  destruct (run_completes s0 (Z.of_nat n) Hrun Hinv Hz')
    as (_ & Hts & Hadv & Hval & _).
  rewrite (remaining_fresh n s0 Hc Hn) in *.
  set (sf := ticks n s0) in *.
  assert (Hgf : gsap (page sf) = false).
  { unfold sf, s0. rewrite gsap_ticks, gsap_initCounter. exact Hg. }
  assert (Hinvf : timer_inv sf) by (apply timer_inv_empty, Hts).
  destruct (start_running sf Hgf Hinvf) as (Hrun1 & Hinv1 & _).
  destruct (start_keeps sf Hgf) as (Ho1 & Hl1 & Hi1 & Hc1 & Hv1).
  destruct (tick_completes (start sf) (Z.of_nat n) Hrun1 Hinv1)
    as (Hts2 & Hadv2 & Hval2 & _ & Htr2 & Hgeb).
  { rewrite Hl1, (adv_loops _ _ _ Hadv). exact Hz'. }
  { rewrite Hc1, (adv_loopCount _ _ _ Hadv), Hc. lia. }
  change (tick (start sf)) with (ticks 1 (start sf)) in *.
  assert (Hof : options (this sf) = o) by (rewrite (adv_options _ _ _ Hadv); exact Ho).
  split_and!.
  - destruct Hrun as (id & Hid & _). exists id.
    rewrite (adv_interval _ _ _ Hadv). exact Hid.
  - exact Hrun1.
  - exact Hts2.
  - rewrite Hval2, Ho1, Hof. reflexivity.
  - rewrite (adv_loopCount _ _ _ Hadv2), Hc1, (adv_loopCount _ _ _ Hadv), Hc. lia.
  - apply events_since_app. rewrite Htr2, start_trace.
    unfold update_events. rewrite Hgeb, Ho1, Hv1, Hi1, Hof, Hval, Ho.
    rewrite (adv_increment _ _ _ Hadv), Hi.
    rewrite <- !app_assoc. reflexivity.
Qed.

Lemma start_after_completion_witness :
  events_since (page (ticks 20 (initCounter "" scenario plain_page)))
    (ticks 1 (start (ticks 20 (initCounter "" scenario plain_page))))
  = [Started; Render "1000"; Render "1050"; OnUpdate 1050; Render "1000";
     OnComplete 1000]%float.
Proof.
  destruct (start_after_completion "" scenario plain_page 20 eq_refl eq_refl)
    as (_ & _ & _ & _ & _ & H); [vm_compute; reflexivity | lia | exact H].
Defined.

(** X7. [toggle()] looks at the handle, not at the timer.  On a state whose
    handle is unset it is [start()]; on a running state it is [stop()] and
    leaves no timer.  After a fresh run has completed the handle is still
    set, so the first [toggle()] only clears it, without rendering or
    entering [start()], and it takes a second [toggle()] to run again. *)
Theorem toggle_after_completion text0 (o : Options) p (n : nat) :
  gsap p = false → timers p = ∅ →
  JS.float_int (JS.Math_ceil (speed o / refreshInterval o)%float)
  = Some (Z.of_nat n) →
  (1 <= n)%nat →
  let sf := ticks n (initCounter text0 o p) in
  (∀ s, interval (this s) = None → toggle s = start s)
  ∧ (∀ s, timer_inv s → running s →
       toggle s = stop s ∧ timers (page (toggle s)) = ∅)
  ∧ timers (page sf) = ∅
  ∧ toggle sf = stop sf
  ∧ trace (page (toggle sf)) = trace (page sf)
  ∧ this (toggle sf) = set_interval None (this sf)
  ∧ timers (page (toggle sf)) = ∅
  ∧ toggle (toggle sf) = start (toggle sf)
  ∧ running (toggle (toggle sf)).
Proof.
  intros Hg Ht Hz Hn sf. subst sf.
  destruct (initCounter_builtin text0 o p Hg Ht)
    as (Hrun & Hinv & Ho & Hl & Hi & Hc & Hv & Htr).
  set (s0 := initCounter text0 o p) in *.
  assert (Hz' : JS.float_int (loops (this s0)) = Some (Z.of_nat n))
    by (rewrite Hl; exact Hz).
  destruct (run_completes s0 (Z.of_nat n) Hrun Hinv Hz')
    as (_ & Hts & Hadv & _).
  rewrite (remaining_fresh n s0 Hc Hn) in *.
  set (sf := ticks n s0) in *.
  assert (Hsome : ∃ id, interval (this sf) = Some id).
  { destruct Hrun as (id & Hid & _). exists id.
    rewrite (adv_interval _ _ _ Hadv). exact Hid. }
  assert (Htog : toggle sf = stop sf).
  { destruct Hsome as (id & Hid). unfold toggle. rewrite Hid. reflexivity. }
  assert (Hinvf : timer_inv sf) by (apply timer_inv_empty, Hts).
  assert (Hnone : interval (this (toggle sf)) = None).
  { rewrite Htog, stop_this. reflexivity. }
  assert (Htog2 : toggle (toggle sf) = start (toggle sf)).
  { unfold toggle at 1. rewrite Hnone. reflexivity. }
  split_and!.
  - intros s Hs. unfold toggle. rewrite Hs. reflexivity.
  - intros s Hi' (id & Hid & Hin). unfold toggle. rewrite Hid.
    split; [reflexivity | apply stop_releases, Hi'].
  - exact Hts.
  - exact Htog.
  - rewrite Htog. apply stop_trace.
  - rewrite Htog. apply stop_this.
  - rewrite Htog. apply stop_releases, Hinvf.
  - exact Htog2.
  - rewrite Htog2, Htog. apply start_running.
    + rewrite gsap_stop. unfold sf, s0. rewrite gsap_ticks, gsap_initCounter. exact Hg.
    + apply timer_inv_empty, stop_releases, Hinvf.
Qed.

Lemma toggle_after_completion_witness :
  trace (page (toggle (ticks 20 (initCounter "" scenario plain_page))))
  = trace (page (ticks 20 (initCounter "" scenario plain_page))).
Proof.
  destruct (toggle_after_completion "" scenario plain_page 20 eq_refl eq_refl)
    as (_ & _ & _ & _ & H & _); [vm_compute; reflexivity | lia | exact H].
Defined.

(** *** With GSAP *)

(** X8. When [gsap] is defined, [start()] never uses the interval timer: it
    leaves no timer and no handle, so timer slots change nothing, and it
    creates exactly one tween after killing the earlier ones.  It renders
    before [animateWithGSAP] resets the value, so the element shows the
    value from before the call while [this.value] is already [from]; the
    tick count is not reset.  [stop()] kills the tween. *)
Theorem start_delegates_to_gsap s :
  gsap (page s) = true → timer_inv s →
  timers (page (start s)) = ∅
  ∧ interval (this (start s)) = None
  ∧ tweens (page (start s)) = 1%nat
  ∧ value (this (start s)) = from (options (this s))
  ∧ loopCount (this (start s)) = loopCount (this s)
  ∧ textContent (this (start s))
    = formatter (options (this s)) (value (this s)) (options (this s))
  ∧ trace (page (start s))
    = trace (page s)
      ++ [Started;
          Render (formatter (options (this s)) (value (this s)) (options (this s)))]
  ∧ (∀ k, ticks k (start s) = start s)
  ∧ tweens (page (stop (start s))) = 0%nat.
Proof.
  intros Hg Hinv.
  pose proof (stop_releases s Hinv) as Hrel.
  assert (Hts : timers (page (start s)) = ∅).
  { rewrite (start_gsap s Hg). cbn. exact Hrel. }
  split_and!.
  - exact Hts.
  - rewrite (start_gsap s Hg). reflexivity.
  - rewrite (start_gsap s Hg). reflexivity.
  - rewrite (start_gsap s Hg). reflexivity.
  - rewrite (start_gsap s Hg). reflexivity.
  - rewrite (start_gsap s Hg). reflexivity.
  - apply start_trace.
  - intros k. apply ticks_idle, Hts.
  - destruct (stop_page_rest (start s)) as (_ & _ & _ & _ & Htw).
    rewrite Htw, gsap_start, Hg. reflexivity.
Qed.

Lemma start_delegates_to_gsap_witness :
  value (this (start (construct "41" scenario gsap_page))) = 0%float
  ∧ textContent (this (start (construct "41" scenario gsap_page))) = "0"%string
  ∧ tweens (page (start (start (construct "41" scenario gsap_page)))) = 1%nat.
Proof.
  destruct (start_delegates_to_gsap (construct "41" scenario gsap_page) eq_refl)
    as (_ & _ & _ & Hv & _ & Ht & _); [apply timer_inv_empty; reflexivity|].
  destruct (start_delegates_to_gsap (start (construct "41" scenario gsap_page)) eq_refl)
    as (_ & _ & Hw & _); [apply timer_inv_empty; vm_compute; reflexivity|].
  auto.
Defined.

(** *** The text of the element *)

(** The element shows the formatted value. *)
Lemma synced_start s :
  gsap (page s) = false →
  textContent (this (start s))
  = formatter (options (this (start s))) (value (this (start s)))
      (options (this (start s))).
Proof. intros Hg. rewrite (start_builtin s Hg). reflexivity. Qed.

Lemma synced_update s :
  textContent (this (update s))
  = formatter (options (this (update s))) (value (this (update s)))
      (options (this (update s))).
Proof. rewrite update_textContent, update_options. reflexivity. Qed.

(** X9. On a page without GSAP, once [start()] has been called the element
    always shows the formatted current value: after any sequence of
    [start], [stop], [restart], [toggle], timer ticks and scroll events,
    [textContent] is [formatter(value, options)], and the options are those
    the instance was constructed with. *)
Theorem text_shows_value text0 (o : Options) p ops :
  gsap p = false →
  let s := run ops (initCounter text0 o p) in
  textContent (this s) = formatter o (value (this s)) o
  ∧ options (this s) = o.
Proof.
  intros Hg s. subst s.
  set (ok := λ s : State,
         gsap (page s) = false
         ∧ options (this s) = o
         ∧ textContent (this s)
           = formatter (options (this s)) (value (this s)) (options (this s))).
  assert (Hstart : ∀ s, gsap (page s) = false → options (this s) = o → ok (start s)).
  { intros s Hgs Hos. split_and!.
    - rewrite gsap_start. exact Hgs.
    - rewrite (start_builtin s Hgs). exact Hos.
    - apply synced_start, Hgs. }
  assert (Hstop : ∀ s, ok s → ok (stop s)).
  { intros s (Hgs & Hos & Hsy). split_and!.
    - rewrite gsap_stop. exact Hgs.
    - rewrite stop_this. exact Hos.
    - rewrite stop_this. exact Hsy. }
  assert (Htick : ∀ s, ok s → ok (tick s)).
  { intros s (Hgs & Hos & Hsy). unfold tick.
    destruct (interval (this s)); [|split_and!; assumption].
    destruct (decide _); [|split_and!; assumption].
    split_and!.
    - destruct (update_page_rest s) as (_ & _ & -> & _). exact Hgs.
    - rewrite update_options. exact Hos.
    - apply synced_update. }
  assert (Hstep : ∀ op s, ok s → ok (step op s)).
  { intros op s Hok. pose proof Hok as (Hgs & Hos & Hsy). destruct op; cbn.
    - apply Hstart; assumption.
    - apply Hstop, Hok.
    - unfold restart. apply Hstart.
      + cbn. rewrite gsap_stop. exact Hgs.
      + cbn. rewrite stop_this. exact Hos.
    - unfold toggle. destruct (interval (this s));
        [apply Hstop, Hok | apply Hstart; assumption].
    - apply Htick, Hok.
    - unfold scroll. cbn. destruct (listening (page s)); [|exact Hok].
      unfold checkScroll. destruct (in_view _); [|exact Hok].
      destruct (Hstart (on_page (set_layout g) s) Hgs Hos) as (H1 & H2 & H3).
      split_and!; assumption. }
  assert (Hrun : ∀ l s, ok s → ok (run l s)).
  { induction l as [|op l IH]; intros s Hok; [exact Hok|].
    apply IH, Hstep, Hok. }
  assert (Hinit : ok (initCounter text0 o p)).
  { assert (Hc : gsap (page (construct text0 o p)) = false
                 ∧ options (this (construct text0 o p)) = o).
    { rewrite (construct_builtin text0 o p Hg). auto. }
    destruct Hc. apply Hstart; assumption. }
  destruct (Hrun ops _ Hinit) as (_ & Hos & Hsy).
  rewrite Hos in Hsy. auto.
Qed.

Lemma text_shows_value_witness :
  textContent (this (run [OpTick; OpTick; OpStop; OpTick; OpToggle; OpTick]
                       (initCounter "" scenario plain_page)))
  = "150"%string.
Proof.
  destruct (text_shows_value "" scenario plain_page
              [OpTick; OpTick; OpStop; OpTick; OpToggle; OpTick] eq_refl)
    as (H & _).
  exact H.
Defined.

(** *** Construction *)

(** X10. The constructor initialises the fields and never schedules the
    interval timer.  The [scrollTrigger] option has an effect only when
    [gsap] is defined: otherwise the page is left untouched and nothing will
    start the counter.  With [gsap] and its ScrollTrigger plugin, exactly one
    trigger is registered.  With [gsap] but without the plugin, a warning is
    logged and the scroll listener is attached; [start()] is entered at once
    exactly if the element is already in view, and the listener is then
    detached again. *)
Theorem construct_setup text0 (o : Options) p :
  timers p = ∅ →
  let s := construct text0 o p in
  let armed := scrollTrigger o && gsap p in
  let fallback := armed && negb (gsap_ScrollTrigger p) in
  value (this s) = from o
  ∧ loopCount (this s) = 0%nat
  ∧ loops (this s) = JS.Math_ceil (speed o / refreshInterval o)%float
  ∧ increment (this s)
    = ((to o - from o) / JS.Math_ceil (speed o / refreshInterval o))%float
  ∧ interval (this s) = None
  ∧ timers (page s) = ∅
  ∧ (armed = false → page s = p)
  ∧ scroll_triggers (page s)
    = (if armed && gsap_ScrollTrigger p then S (scroll_triggers p)
       else scroll_triggers p)
  ∧ listening (page s)
    = (if fallback then negb (in_view (layout p)) else listening p)
  ∧ count is_started (events_since p s)
    = (if fallback && in_view (layout p) then 1%nat else 0%nat)
  ∧ tweens (page s)
    = (if fallback && in_view (layout p) then 1%nat else tweens p).
Proof.
  intros Ht s armed fallback. subst s armed fallback. unfold construct.
  set (s0 := mkState _ p).
  assert (Hinv0 : timer_inv s0) by (apply timer_inv_empty; exact Ht).
  destruct (scrollTrigger o) eqn:Hst, (gsap p) eqn:Hg; cbn [andb negb];
    try (split_and!; first [reflexivity | exact Ht | unfold events_since; cbn;
                            rewrite drop_all; reflexivity]).
  unfold setupScrollTrigger. change (gsap_ScrollTrigger (page s0)) with (gsap_ScrollTrigger p).
  destruct (gsap_ScrollTrigger p) eqn:Hpl; cbn [andb negb].
  - split_and!; try first [reflexivity | exact Ht]; [discriminate|].
    unfold events_since. cbn. rewrite drop_all. reflexivity.
  - unfold setupScrollListener, checkScroll.
    set (s1 := on_page (set_listening true) (on_page (emit (Warn _)) s0)).
    change (layout (page s1)) with (layout p).
    assert (Hinv1 : timer_inv s1) by (apply timer_inv_empty; exact Ht).
    assert (Hg1 : gsap (page s1) = true) by exact Hg.
    destruct (in_view (layout p)).
    + assert (Hts : timers (page (start s1)) = ∅).
      { rewrite (start_gsap s1 Hg1). cbn. apply (stop_releases s1 Hinv1). }
      rewrite (start_gsap s1 Hg1) in *. cbn in *.
      split_and!; try first [reflexivity | exact Hts | discriminate].
      erewrite events_since_app; [|cbn; rewrite <- !app_assoc; reflexivity].
      reflexivity.
    + split_and!; try first [reflexivity | exact Ht | discriminate].
      erewrite events_since_app; [|cbn; reflexivity]. reflexivity.
Qed.

Lemma construct_setup_witness :
  page (construct "" (mkOptions (mkConfig 0 1000 2000 100 0 true true true)
                        integer_formatter) plain_page)
  = plain_page.
Proof.
  destruct (construct_setup "" (mkOptions (mkConfig 0 1000 2000 100 0 true true true)
                                  integer_formatter) plain_page eq_refl)
    as (_ & _ & _ & _ & _ & _ & H & _).
  apply H. reflexivity.
Defined.

End CounterRuns.

(** ** ModernCounter: the options *)

Module OptionFacts.
Import ModernCounter CounterOptions.

Lemma truthy_or (a b : float) : JS.truthy b = true → JS.truthy (JS.or a b) = true.
Proof. intros Hb. unfold JS.or. destruct (JS.truthy a) eqn:Ha; assumption. Qed.

Lemma or_truthy (a b : float) : JS.truthy a = true → JS.or a b = a.
Proof. intros Ha. unfold JS.or. rewrite Ha. reflexivity. Qed.

Lemma or_falsy (a b : float) : JS.truthy a = false → JS.or a b = b.
Proof. intros Ha. unfold JS.or. rewrite Ha. reflexivity. Qed.

(** X11. Options read from data attributes are guarded by [||].  Whatever
    the attributes hold, when the constructor is given no [speed] and no
    [refreshInterval] the merged values are never 0 and never NaN: an
    attribute that parses to 0 or NaN gives the default, 1000 or 100, and
    any other parsed number is kept.  [data-refresh-interval] takes
    precedence over [data-refreshInterval].  A [speed] or [refreshInterval]
    given to the constructor wins over the attribute, unguarded. *)
Theorem attribute_options_guarded toFixed (a : Attributes) (given : Partial) :
  let o := merge toFixed a given in
  (opt_speed given = None → JS.truthy (speed o) = true)
  ∧ (opt_refreshInterval given = None → JS.truthy (refreshInterval o) = true)
  ∧ (∀ x, opt_speed given = None → data_speed a = Some x →
       speed o = (if JS.truthy x then x else 1000%float))
  ∧ (opt_speed given = None → data_speed a = None → speed o = 1000%float)
  ∧ (∀ x, opt_refreshInterval given = None → data_refresh_interval a = Some x →
       refreshInterval o = (if JS.truthy x then x else 100%float))
  ∧ (∀ x, opt_refreshInterval given = None → data_refresh_interval a = None →
       data_refreshInterval a = Some x →
       refreshInterval o = (if JS.truthy x then x else 100%float))
  ∧ (∀ v, opt_speed given = Some v → speed o = v)
  ∧ (∀ v, opt_refreshInterval given = Some v → refreshInterval o = v).
Proof.
  cbn zeta. unfold merge, spread, getDataOptions. cbn.
  split_and!.
  - intros ->. cbn. destruct (data_speed a); cbn; [apply truthy_or|]; reflexivity.
  - intros ->. cbn. destruct (data_refresh_interval a); cbn; [apply truthy_or; reflexivity|].
    destruct (data_refreshInterval a); cbn; [apply truthy_or|]; reflexivity.
  - intros x -> ->. reflexivity.
  - intros -> ->. reflexivity.
  - intros x -> ->. reflexivity.
  - intros x -> -> ->. reflexivity.
  - intros v ->. reflexivity.
  - intros v ->. reflexivity.
Qed.

Lemma attribute_options_guarded_witness :
  speed (merge (λ _ _, ""%string)
           (mkAttributes None None (Some 0%float) (Some nan) (Some 250%float) None)
           no_options)
  = 1000%float
  ∧ refreshInterval (merge (λ _ _, ""%string)
           (mkAttributes None None (Some 0%float) (Some nan) (Some 250%float) None)
           no_options)
    = 100%float.
Proof.
  destruct (attribute_options_guarded (λ _ _, ""%string)
              (mkAttributes None None (Some 0%float) (Some nan) (Some 250%float) None)
              no_options)
    as (_ & _ & Hs & _ & Hr & _).
  split; [apply (Hs 0%float) | apply (Hr nan)]; reflexivity.
Defined.

End OptionFacts.

(** ** VerticalCounter: construction, [reset()], unusable instances *)

Module DigitMore.
Import VerticalCounter DigitFacts.

Lemma digit_value_bound c : (digit_value c <= 9)%nat.
Proof.
  unfold digit_value, parseInt_char.
  destruct (_ && _)%N eqn:Hb; cbn; [|lia].
  apply andb_true_iff in Hb as [H1 H2].
  apply N.leb_le in H1, H2. lia.
Qed.

Lemma digit_value_not_digit c : parseInt_char c = None → digit_value c = 0%nat.
Proof. intros H. unfold digit_value. rewrite H. reflexivity. Qed.

Lemma length_list_ascii_of_string t :
  length (list_ascii_of_string t) = String.length t.
Proof. induction t as [|c t IH]; cbn; [reflexivity | rewrite IH; reflexivity]. Qed.

Lemma truthy_to_nonempty t : t ≠ ""%string → truthy_to (Some t) = true.
Proof. destruct t; [congruence | reflexivity]. Qed.

(** *** Code units *)

(** ASCII bytes are their own code units. *)
Lemma utf16_ascii bs :
  forallb (λ b, (b <? 128)%N) bs = true → JS.utf16 bs = bs.
Proof.
  induction bs as [|b bs IH]; [reflexivity|].
  cbn [forallb]. intros [Hb Hbs]%andb_true_iff.
  cbn [JS.utf16]. rewrite Hb, (IH Hbs). reflexivity.
Qed.

Lemma split_ascii t :
  JS.ascii_only t = true →
  JS.split t = map N_of_ascii (list_ascii_of_string t).
Proof.
  intros Ha. unfold JS.split. apply utf16_ascii.
  unfold JS.ascii_only in Ha.
  induction (list_ascii_of_string t) as [|c l IH]; [reflexivity|].
  cbn [forallb map] in *. apply andb_true_iff in Ha as [Hc Hl].
  rewrite Hc, (IH Hl). reflexivity.
Qed.

(** Every character gives at least one code unit. *)
Lemma utf16_cons b bs : JS.utf16 (b :: bs) ≠ [].
Proof.
  destruct bs as [|b1 [|b2 [|b3 bs]]]; cbn [JS.utf16];
    repeat (match goal with
            | |- context [if ?c then _ else _] => destruct c
            end); discriminate.
Qed.

Lemma split_nonempty t : t ≠ ""%string → JS.split t ≠ [].
Proof.
  destruct t as [|c t]; [congruence|]. intros _. unfold JS.split.
  cbn [list_ascii_of_string map]. apply utf16_cons.
Qed.

(** *** The digits of the columns *)

Lemma values_lookup (ds : list Digit) (l : list N) :
  map value ds = map digit_value l →
  ∀ i c, l !! i = Some c → value <$> ds !! i = Some (digit_value c).
Proof.
  intros Hv i c Hi. rewrite <- list_lookup_fmap.
  change (fmap value ds) with (map value ds). rewrite Hv.
  change (map digit_value l) with (fmap digit_value l).
  rewrite list_lookup_fmap, Hi. reflexivity.
Qed.

Lemma values_bound (ds : list Digit) (l : list N) :
  map value ds = map digit_value l → Forall (λ x, (value x <= 9)%nat) ds.
Proof.
  intros Hv. apply Forall_forall. intros x Hx. apply list_elem_of_In in Hx.
  assert (Hin : In (value x) (map value ds)) by (apply in_map; exact Hx).
  rewrite Hv in Hin. apply in_map_iff in Hin as (c & <- & _).
  apply digit_value_bound.
Qed.

Lemma values_length (ds : list Digit) (l : list N) :
  map value ds = map digit_value l → length ds = length l.
Proof. intros Hv. rewrite <- (length_map value), Hv, length_map. reflexivity. Qed.

(** X12. For every non-empty target, the constructor builds one column per
    UTF-16 code unit of the string, in order, which is one per character
    for an ASCII target.  The digit of a column is the decimal digit its code unit
    stands for, or 0 when it is not a digit (a sign, a separator, a decimal
    point, a letter): there is at least one column, no code unit is left
    out and no digit exceeds 9. *)
Theorem columns_follow_target el g p t :
  to (merge el g) = Some t → t ≠ ""%string →
  ∃ s ds,
    construct el g p = Some s
    ∧ digitElements (this s) = Some ds
    ∧ ds ≠ []
    ∧ length ds = length (JS.split t)
    ∧ (JS.ascii_only t = true → length ds = String.length t)
    ∧ (∀ i c, JS.split t !! i = Some c →
         value <$> ds !! i = Some (digit_value c))
    ∧ Forall (λ x, (value x <= 9)%nat) ds
    ∧ (∀ i c, JS.split t !! i = Some c → parseInt_char c = None →
         value <$> ds !! i = Some 0%nat).
Proof.
  intros Ht Hne.
  destruct (construct_built el g p t Ht (truthy_to_nonempty t Hne))
    as (s & ds & Hc & Hd & _ & Hv).
  pose proof (values_lookup ds (JS.split t) Hv) as Hlook.
  pose proof (values_length ds (JS.split t) Hv) as Hlen.
  exists s, ds. split_and!; try assumption.
  - intros ->. apply (split_nonempty t Hne).
    destruct (JS.split t); [reflexivity | discriminate Hlen].
  - intros Ha. rewrite Hlen, (split_ascii t Ha), length_map.
    apply length_list_ascii_of_string.
  - apply (values_bound ds (JS.split t) Hv).
  - intros i c Hi Hnd. rewrite (Hlook i c Hi), (digit_value_not_digit c Hnd).
    reflexivity.
Qed.

Lemma columns_follow_target_witness :
  ∃ s ds,
    construct (mkElement (Some "1é2"%string) None) no_options
      (fresh_page true (layout_at 900)) = Some s
    ∧ digitElements (this s) = Some ds
    ∧ length ds = 3%nat
    ∧ value <$> ds !! 1%nat = Some 0%nat
    ∧ value <$> ds !! 2%nat = Some 2%nat.
Proof.
  destruct (columns_follow_target (mkElement (Some "1é2"%string) None) no_options
              (fresh_page true (layout_at 900)) "1é2" eq_refl)
    as (s & ds & Hc & Hd & _ & Hl & _ & Hv & _); [discriminate|].
  exists s, ds. split_and!; try assumption.
  - apply (Hv 1%nat 233%N). reflexivity.
  - apply (Hv 2%nat 50%N). reflexivity.
Defined.

(** X13. An instance whose construction was aborted, for a missing target
    or for an empty one, cannot be used: [start()] and [reset()] throw on
    it, reading [digitElements] that was never assigned.  Nothing else
    reaches it: scroll events leave it as it is. *)
Theorem aborted_instance_unusable el g p :
  truthy_to (to (merge el g)) = false → listening p = false →
  ∃ s, construct el g p = Some s
       ∧ digitElements (this s) = None
       ∧ start s = None
       ∧ reset s = None
       ∧ (∀ gs, ∃ s', scrolls gs s = Some s'
                      ∧ this s' = this s
                      ∧ trace (page s') = trace (page s))
       ∧ truthy_to (Some ""%string) = false.
Proof.
  intros Ht Hl. unfold construct. rewrite Ht. cbn [negb].
  eexists. split; [reflexivity|]. split_and!; try reflexivity.
  intros gs.
  destruct (digit_scrolls_detached gs
              (on_page (emit (ConsoleError error_message))
                 (mkState (mkWidget (merge el g) None) p)) Hl)
    as (s' & Hs & Htr & _ & Hth).
  exists s'. auto.
Qed.

Lemma aborted_instance_unusable_witness :
  ∃ s, construct (mkElement (Some ""%string) None) no_options
         (fresh_page false (layout_at 0)) = Some s
       ∧ start s = None.
Proof.
  destruct (aborted_instance_unusable (mkElement (Some ""%string) None) no_options
              (fresh_page false (layout_at 0)) eq_refl eq_refl)
    as (s & Hc & _ & Hs & _).
  exists s. auto.
Defined.

(** X14. [reset()] on a built instance puts every strip back to the top
    with no transition and touches nothing else: the digits, the attached
    [transitionend] handlers and the whole page are as before, so it logs
    nothing, starts nothing, and does not cancel the timeouts a [start()]
    has pending.  A second [reset()] changes nothing. *)
Theorem reset_snaps_back s ds :
  digitElements (this s) = Some ds →
  ∃ s' ds',
    reset s = Some s'
    ∧ page s' = page s
    ∧ options (this s') = options (this s)
    ∧ digitElements (this s') = Some ds'
    ∧ length ds' = length ds
    ∧ map value ds' = map value ds
    ∧ map (λ x, handlers (strip x)) ds' = map (λ x, handlers (strip x)) ds
    ∧ Forall (λ x, transition (strip x) = None ∧ transform (strip x) = Some 0%nat) ds'
    ∧ reset s' = Some s'.
Proof.
  intros Hd. unfold reset. rewrite Hd.
  eexists _, _. split; [reflexivity|]. cbn.
  split_and!; try reflexivity.
  - apply length_map.
  - rewrite map_map. reflexivity.
  - rewrite map_map. reflexivity.
  - apply Forall_forall. intros x Hx. apply list_elem_of_In in Hx.
    apply in_map_iff in Hx as (y & <- & _). cbn. auto.
  - rewrite map_map. cbn. reflexivity.
Qed.

Lemma reset_snaps_back_witness :
  ∃ s s' s'',
    construct target_4562 no_options (fresh_page false (layout_at 900)) = Some s
    ∧ start s = Some s'
    ∧ reset s' = Some s''
    ∧ timeouts (page s'') = timeouts (page s').
Proof.
  destruct (construct_built target_4562 no_options
              (fresh_page false (layout_at 900)) "4562" eq_refl eq_refl)
    as (s & ds & Hc & Hd & _).
  destruct (start_built s ds Hd) as (s' & Hs & _ & _ & _ & Hd' & _).
  destruct (reset_snaps_back s' _ Hd') as (s'' & _ & Hr & Hp & _).
  exists s, s', s''. rewrite Hp. auto.
Defined.

(** *** How the constructor arms the animation *)

(** X15. With a truthy target the constructor arms exactly one way of
    starting.  Without [scrollTrigger] it schedules a single timeout of 100
    ms whose callback is [start()], and does not start yet.  With
    [scrollTrigger] and the global [ScrollTrigger] it registers one trigger
    and schedules nothing.  With [scrollTrigger] but no [ScrollTrigger] it
    attaches the scroll listener, which enters [start()] at once exactly if
    the element is in view and is then detached; [start()] then schedules
    one timeout per column, that is per code unit of the target (per
    character, for an ASCII target). *)
Theorem construct_arms_start el g p t :
  to (merge el g) = Some t → t ≠ ""%string →
  ∃ s, construct el g p = Some s
    ∧ (scrollTrigger (merge el g) = false →
         timeouts (page s) = timeouts p ++ [(100%float, RunStart)]
         ∧ trace (page s) = trace p
         ∧ listening (page s) = listening p
         ∧ scroll_triggers (page s) = scroll_triggers p)
    ∧ (scrollTrigger (merge el g) = true → ScrollTrigger p = true →
         scroll_triggers (page s) = S (scroll_triggers p)
         ∧ timeouts (page s) = timeouts p
         ∧ trace (page s) = trace p
         ∧ listening (page s) = listening p)
    ∧ (scrollTrigger (merge el g) = true → ScrollTrigger p = false →
         listening (page s) = negb (in_view (layout p))
         ∧ trace (page s)
           = trace p ++ (if in_view (layout p) then [Started] else [])
         ∧ scroll_triggers (page s) = scroll_triggers p
         ∧ length (timeouts (page s))
           = (length (timeouts p)
              + (if in_view (layout p) then length (JS.split t) else 0))%nat
         ∧ (JS.ascii_only t = true →
              length (JS.split t) = String.length t)).
Proof.
  intros Ht Hne. unfold construct.
  rewrite Ht, (truthy_to_nonempty t Hne). cbn [negb].
  set (s0 := mkState (mkWidget (merge el g) None) p).
  pose proof (buildCounter_digits s0 t Ht) as Hb.
  set (ds := map _ (JS.split t)) in Hb.
  assert (Hlen : length ds = length (JS.split t)).
  { unfold ds. apply length_map. }
  assert (Hascii : JS.ascii_only t = true → length (JS.split t) = String.length t).
  { intros Ha. rewrite (split_ascii t Ha), length_map.
    apply length_list_ascii_of_string. }
  destruct (scrollTrigger (merge el g)).
  - change (ScrollTrigger (page (buildCounter s0))) with (ScrollTrigger p).
    destruct (ScrollTrigger p).
    + eexists. split; [reflexivity|]. split_and!; try discriminate.
      intros _ _. cbn. auto.
    + unfold setupScrollListener, checkScroll.
      change (layout (page (on_page (set_listening true) (buildCounter s0))))
        with (layout p).
      destruct (in_view (layout p)).
      * destruct (start_built (on_page (set_listening true) (buildCounter s0)) ds Hb)
          as (s' & Hs & _).
        rewrite Hs. cbn. eexists. split; [reflexivity|].
        split_and!; try discriminate. intros _ _.
        unfold start in Hs. cbn [this on_page] in Hs. rewrite Hb in Hs.
        injection Hs as <-. cbn.
        split_and!; try reflexivity; try exact Hascii.
        rewrite length_app, length_imap, Hlen. reflexivity.
      * eexists. split; [reflexivity|]. split_and!; try discriminate.
        intros _ _. cbn. rewrite app_nil_r, Nat.add_0_r. auto.
  - eexists. split; [reflexivity|]. split_and!; try discriminate.
    intros _. cbn. auto.
Qed.

Lemma construct_arms_start_witness :
  ∃ s, construct target_4562 no_options (fresh_page false (layout_at 0)) = Some s
       ∧ timeouts (page s) = [(100%float, RunStart)]
       ∧ trace (page s) = [].
Proof.
  destruct (construct_arms_start target_4562 no_options
              (fresh_page false (layout_at 0)) "4562" eq_refl)
    as (s & Hc & H & _); [discriminate|].
  destruct (H eq_refl) as (Ht & Htr & _).
  exists s. auto.
Defined.

End DigitMore.

(** ** VerticalCounter: what the timeouts and the transition ends do *)

Module DigitRunFacts.
Import VerticalCounter DigitRuns DigitFacts DigitMore.

Lemma fire_all_snoc ts t s : fire_all (ts ++ [t]) s = fire_all ts s ≫= fire t.
Proof. unfold fire_all. rewrite foldl_app. reflexivity. Qed.

Lemma set_transform_idem r x : set_transform r (set_transform r x) = set_transform r x.
Proof. reflexivity. Qed.

(** The callbacks of column transforms, in any number and order: each sets
    the strip of its column and nothing else. *)
Lemma fire_all_transforms ts : ∀ s ds,
  digitElements (this s) = Some ds →
  (∀ t, t ∈ ts → ∃ j x, t = SetTransform j (value x) ∧ ds !! j = Some x) →
  ∃ s' ds',
    fire_all ts s = Some s'
    ∧ page s' = page s
    ∧ options (this s') = options (this s)
    ∧ digitElements (this s') = Some ds'
    ∧ length ds' = length ds
    ∧ (∀ i x, ds !! i = Some x →
         (SetTransform i (value x) ∈ ts →
            ds' !! i = Some (set_transform (value x) x))
         ∧ (SetTransform i (value x) ∉ ts → ds' !! i = Some x)).
Proof.
  induction ts as [|t ts IH] using rev_ind; intros s ds Hd Hts.
  - exists s, ds. split_and!; try reflexivity; try assumption.
    intros i x Hx. split; [intros Hin; inversion Hin | auto].
  - destruct (IH s ds Hd) as (s' & ds' & Hf & Hp & Ho & Hd' & Hlen & Hlook).
    { intros t' Hin. apply Hts. apply elem_of_app. left. exact Hin. }
    destruct (Hts t) as (j & xj & -> & Hj).
    { apply elem_of_app. right. apply list_elem_of_singleton. reflexivity. }
    rewrite fire_all_snoc, Hf. cbn. rewrite Hd'. cbn.
    eexists _, _. split; [reflexivity|]. cbn.
    split_and!; try assumption; try reflexivity.
    + rewrite length_alter. exact Hlen.
    + intros i x Hx. destruct (Hlook i x Hx) as (Hin & Hnin).
      destruct (decide (i = j)) as [->|Hne].
      * assert (x = xj) by congruence. subst xj.
        split.
        -- intros _. rewrite list_lookup_alter_eq.
           destruct (decide (SetTransform j (value x) ∈ ts)) as [H|H].
           ++ rewrite (Hin H). reflexivity.
           ++ rewrite (Hnin H). reflexivity.
        -- intros Hnot. exfalso. apply Hnot, elem_of_app. right.
           apply list_elem_of_singleton. reflexivity.
      * rewrite list_lookup_alter_ne by congruence.
        split.
        -- intros H. apply elem_of_app in H as [H|H]; [exact (Hin H)|].
           apply list_elem_of_singleton in H. congruence.
        -- intros H. apply Hnin. intros H'. apply H, elem_of_app. left. exact H'.
Qed.

Lemma ten_numbers_started d ds :
  ten_numbers ds → ten_numbers (imap (start_digit d) ds).
Proof.
  unfold ten_numbers. rewrite !Forall_lookup. intros H i y Hy.
  rewrite list_lookup_imap in Hy.
  destruct (ds !! i) as [x|] eqn:Hx; [|discriminate].
  injection Hy as <-. cbn. apply (H i x Hx).
Qed.

Lemma construct_ten_numbers el g p s ds :
  construct el g p = Some s → digitElements (this s) = Some ds → ten_numbers ds.
Proof.
  unfold construct. destruct (negb _); [intros [= <-]; discriminate|].
  set (s0 := mkState (mkWidget (merge el g) None) p).
  assert (Hb : ∃ ds0, digitElements (this (buildCounter s0)) = Some ds0
                      ∧ ten_numbers ds0).
  { eexists. split; [reflexivity|]. apply Forall_forall. intros x Hx.
    apply list_elem_of_In in Hx. apply in_map_iff in Hx as (c & <- & _).
    reflexivity. }
  destruct Hb as (ds0 & Hb & Hten).
  destruct (scrollTrigger (merge el g)).
  - destruct (ScrollTrigger _).
    + intros [= <-]. cbn [this on_page]. rewrite Hb. intros [= <-]. exact Hten.
    + unfold setupScrollListener, checkScroll. destruct (in_view _).
      * destruct (start_built (on_page (set_listening true) (buildCounter s0)) ds0 Hb)
          as (s' & -> & _ & _ & _ & Hd' & _).
        cbn [fmap option_fmap option_map]. intros [= <-]. cbn [this on_page].
        rewrite Hd'. intros [= <-].
        apply ten_numbers_started, Hten.
      * intros [= <-]. cbn [this on_page]. rewrite Hb. intros [= <-]. exact Hten.
  - intros [= <-]. cbn [this on_page]. rewrite Hb. intros [= <-]. exact Hten.
Qed.

Lemma elem_of_start_tasks t ds :
  t ∈ start_tasks ds → ∃ j x, t = SetTransform j (value x) ∧ ds !! j = Some x.
Proof.
  intros Hin. apply list_elem_of_lookup in Hin as (j & Hj).
  unfold start_tasks in Hj. rewrite list_lookup_imap in Hj.
  destruct (ds !! j) as [x|] eqn:Hx; [|discriminate].
  injection Hj as <-. eauto.
Qed.

Lemma start_tasks_elem_of ds i x :
  ds !! i = Some x → SetTransform i (value x) ∈ start_tasks ds.
Proof.
  intros Hx. apply list_elem_of_lookup. exists i.
  unfold start_tasks. rewrite list_lookup_imap, Hx. reflexivity.
Qed.

Lemma imap_delayed (f : nat → Digit → Task) (ds : list Digit) :
  imap (λ i x, (50%float, f i x)) ds = map (λ t, (50%float, t)) (imap f ds).
Proof.
  revert f. induction ds as [|x ds IH]; intros f; [reflexivity|].
  cbn. f_equal. apply (IH (f ∘ S)).
Qed.

(** [start()] on a built instance and then the callbacks of the timeouts it
    scheduled, run in any order [ts]. *)
Lemma start_then_tasks s ds ts :
  digitElements (this s) = Some ds → ten_numbers ds →
  Forall (λ x, (value x <= 9)%nat) ds →
  ts ≡ₚ start_tasks ds →
  ∃ s1 s2 ds2,
    start s = Some s1
    ∧ timeouts (page s1)
      = timeouts (page s) ++ map (λ t, (50%float, t)) (start_tasks ds)
    ∧ fire_all ts s1 = Some s2
    ∧ page s2 = page s1
    ∧ digitElements (this s2) = Some ds2
    ∧ length ds2 = length ds
    ∧ (∀ i x, ds !! i = Some x →
         ∃ y, ds2 !! i = Some y
              ∧ value y = value x
              ∧ transform (strip y) = Some (value x)
              ∧ transition (strip y)
                = Some (mkTransition (duration (options (this s))) (stagger i))
              ∧ shown y = Some (value x)).
Proof.
  intros Hd Hten Hval Hperm.
  destruct (start_built s ds Hd) as (s1 & Hs & _ & _ & _ & Hd1 & _).
  set (ds1 := imap (start_digit (duration (options (this s)))) ds) in *.
  assert (Hlook1 : ∀ i x, ds !! i = Some x →
            ds1 !! i = Some (start_digit (duration (options (this s))) i x)).
  { intros i x Hx. unfold ds1. rewrite list_lookup_imap, Hx. reflexivity. }
  destruct (fire_all_transforms ts s1 ds1 Hd1)
    as (s2 & ds2 & Hf & Hp & _ & Hd2 & Hlen & Hlook).
  { intros t Hin. rewrite Hperm in Hin.
    apply elem_of_start_tasks in Hin as (j & x & -> & Hj).
    exists j, (start_digit (duration (options (this s))) j x).
    split; [reflexivity | apply Hlook1, Hj]. }
  exists s1, s2, ds2. split_and!; try assumption.
  - unfold start in Hs. rewrite Hd in Hs. injection Hs as <-. cbn.
    f_equal. apply imap_delayed.
  - rewrite Hlen. unfold ds1. apply length_imap.
  - intros i x Hx.
    destruct (Hlook i _ (Hlook1 i x Hx)) as (Hin & _).
    eexists. split.
    + apply Hin. rewrite Hperm. cbn. apply (start_tasks_elem_of ds i x Hx).
    + cbn. split_and!; try reflexivity.
      unfold shown. cbn.
      unfold ten_numbers in Hten. rewrite Forall_lookup in Hten.
      rewrite (Hten i x Hx).
      rewrite Forall_lookup in Hval. pose proof (Hval i x Hx) as Hle.
      apply lookup_seq_lt. lia.
Qed.

(** X16. The widget ends up showing its target.  For a non-empty target,
    [start()] on the constructed instance schedules one timeout per column,
    that is per code unit of the target; once their callbacks have run, in
    whatever order, the strip of column [i] is moved up by the digit of
    code unit [i] of the target, so the number cell in its window is that
    digit (0 for a code unit that is not a digit), and its transition has
    the configured duration and the delay [i * 0.1] seconds. *)
Theorem columns_show_target el g p t :
  to (merge el g) = Some t → t ≠ ""%string →
  ∃ s ds s1,
    construct el g p = Some s
    ∧ digitElements (this s) = Some ds
    ∧ start s = Some s1
    ∧ length (start_tasks ds) = length (JS.split t)
    ∧ timeouts (page s1)
      = timeouts (page s) ++ map (λ t, (50%float, t)) (start_tasks ds)
    ∧ ∀ ts, ts ≡ₚ start_tasks ds →
        ∃ s2 ds2,
          fire_all ts s1 = Some s2
          ∧ digitElements (this s2) = Some ds2
          ∧ length ds2 = length (JS.split t)
          ∧ ∀ i c, JS.split t !! i = Some c →
              ∃ y, ds2 !! i = Some y
                   ∧ shown y = Some (digit_value c)
                   ∧ transition (strip y)
                     = Some (mkTransition (duration (merge el g)) (stagger i)).
Proof.
  intros Ht Hne.
  destruct (construct_built el g p t Ht (truthy_to_nonempty t Hne))
    as (s & ds & Hc & Hd & Ho & Hv).
  pose proof (values_length ds (JS.split t) Hv) as Hlen.
  pose proof (values_lookup ds (JS.split t) Hv) as Hlook.
  pose proof (values_bound ds (JS.split t) Hv) as Hval.
  pose proof (construct_ten_numbers el g p s ds Hc Hd) as Hten.
  destruct (start_built s ds Hd) as (s1 & Hs & _).
  exists s, ds, s1. split_and!; try assumption.
  - unfold start_tasks. rewrite length_imap. exact Hlen.
  - destruct (start_then_tasks s ds (start_tasks ds) Hd Hten Hval (reflexivity _))
      as (s1' & _ & _ & Hs' & Hto & _).
    rewrite Hs in Hs'. injection Hs' as <-. exact Hto.
  - intros ts Hperm.
    destruct (start_then_tasks s ds ts Hd Hten Hval Hperm)
      as (s1' & s2 & ds2 & Hs' & _ & Hf & _ & Hd2 & Hlen2 & Hcols).
    rewrite Hs in Hs'. injection Hs' as <-.
    exists s2, ds2. split_and!; try assumption; [congruence|].
    intros i c Hi. pose proof (Hlook i c Hi) as Hvi.
    destruct (ds !! i) as [x|] eqn:Hx; [|discriminate].
    injection Hvi as Hvi.
    destruct (Hcols i x Hx) as (y & Hy & _ & _ & Htr & Hsh).
    exists y. rewrite Hsh, Htr, Hvi, Ho. auto.
Qed.

Lemma columns_show_target_witness :
  ∃ s ds s1 s2 ds2,
    construct target_4562 no_options (fresh_page false (layout_at 900)) = Some s
    ∧ digitElements (this s) = Some ds
    ∧ start s = Some s1
    ∧ fire_all (rev (start_tasks ds)) s1 = Some s2
    ∧ digitElements (this s2) = Some ds2
    ∧ (shown <$> ds2 !! 2%nat) = Some (Some 6%nat).
Proof.
  destruct (columns_show_target target_4562 no_options
              (fresh_page false (layout_at 900)) "4562" eq_refl)
    as (s & ds & s1 & Hc & Hd & Hs & _ & _ & H); [discriminate|].
  destruct (H (rev (start_tasks ds))) as (s2 & ds2 & Hf & Hd2 & _ & Hcols).
  { symmetry. apply Permutation_rev. }
  destruct (Hcols 2%nat 54%N eq_refl) as (y & Hy & Hsh & _).
  exists s, ds, s1, s2, ds2. rewrite Hy. cbn. rewrite Hsh.
  split_and!; try assumption. reflexivity.
Defined.

Lemma reset_built s ds :
  digitElements (this s) = Some ds →
  ∃ s' ds', reset s = Some s'
            ∧ page s' = page s
            ∧ digitElements (this s') = Some ds'
            ∧ length ds' = length ds.
Proof.
  intros Hd. unfold reset. rewrite Hd. eexists _, _.
  split; [reflexivity|]. cbn. split_and!; try reflexivity. apply length_map.
Qed.

(** X17. [reset()] does not cancel the timeouts of a [start()].  If it is
    called within the priming delay, the callbacks still run afterwards:
    every strip then moves to its digit after all, but with [transition]
    set to none, that is at once and without the roll. *)
Theorem reset_then_timeouts s ds ts :
  digitElements (this s) = Some ds → ts ≡ₚ start_tasks ds →
  ∃ s1 s2 s3 ds3,
    start s = Some s1
    ∧ reset s1 = Some s2
    ∧ timeouts (page s2) = timeouts (page s1)
    ∧ fire_all ts s2 = Some s3
    ∧ digitElements (this s3) = Some ds3
    ∧ length ds3 = length ds
    ∧ ∀ i x, ds !! i = Some x →
        ∃ y, ds3 !! i = Some y
             ∧ value y = value x
             ∧ transform (strip y) = Some (value x)
             ∧ transition (strip y) = None.
Proof.
  intros Hd Hperm.
  destruct (start_built s ds Hd) as (s1 & Hs & _ & _ & _ & Hd1 & _).
  set (ds1 := imap (start_digit (duration (options (this s)))) ds) in *.
  destruct (reset_built s1 ds1 Hd1) as (s2 & ds2 & Hr & Hp & Hd2 & Hlen2).
  assert (Hds2 : ∀ i x, ds !! i = Some x →
            ∃ y, ds2 !! i = Some y ∧ value y = value x
                 ∧ transition (strip y) = None).
  { intros i x Hx. unfold reset in Hr. rewrite Hd1 in Hr. injection Hr as <-.
    cbn in Hd2. injection Hd2 as <-.
    change (map ?f ds1) with (f <$> ds1).
    rewrite list_lookup_fmap. unfold ds1. rewrite list_lookup_imap, Hx.
    eexists. split; [reflexivity|]. cbn. auto. }
  destruct (fire_all_transforms ts s2 ds2 Hd2)
    as (s3 & ds3 & Hf & _ & _ & Hd3 & Hlen3 & Hlook).
  { intros t Hin. rewrite Hperm in Hin.
    apply elem_of_start_tasks in Hin as (j & x & -> & Hj).
    destruct (Hds2 j x Hj) as (y & Hy & Hv & _).
    exists j, y. rewrite Hv. auto. }
  exists s1, s2, s3, ds3. split_and!; try assumption.
  - rewrite Hp. reflexivity.
  - rewrite Hlen3, Hlen2. unfold ds1. apply length_imap.
  - intros i x Hx. destruct (Hds2 i x Hx) as (y & Hy & Hv & Htr).
    destruct (Hlook i y Hy) as (Hin & _).
    exists (set_transform (value y) y). split_and!.
    + apply Hin. rewrite Hv, Hperm. apply (start_tasks_elem_of ds i x Hx).
    + exact Hv.
    + cbn. rewrite Hv. reflexivity.
    + exact Htr.
Qed.

Lemma reset_then_timeouts_witness :
  ∃ s1 s2 s3,
    start (mkState (mkWidget DEFAULTS (Some [mkDigit new_strip 7]))
             (fresh_page false (layout_at 0))) = Some s1
    ∧ reset s1 = Some s2
    ∧ fire_all [SetTransform 0 7] s2 = Some s3
    ∧ (digitElements (this s3) ≫= λ l, transform <$> (strip <$> l !! 0%nat))
      = Some (Some 7%nat).
Proof.
  destruct (reset_then_timeouts
              (mkState (mkWidget DEFAULTS (Some [mkDigit new_strip 7]))
                 (fresh_page false (layout_at 0)))
              [mkDigit new_strip 7] [SetTransform 0 7] eq_refl (reflexivity _))
    as (s1 & s2 & s3 & ds3 & Hs & Hr & _ & Hf & Hd3 & _ & Hcols).
  destruct (Hcols 0%nat (mkDigit new_strip 7) eq_refl) as (y & Hy & _ & Ht & _).
  exists s1, s2, s3. rewrite Hd3. cbn. rewrite Hy. cbn. rewrite Ht. auto.
Defined.

(** *** Counting the columns that have ended *)

Lemma filter_ended_same (l es : list nat) (i : nat) :
  (i ∈ es ∨ i ∉ l) →
  List.filter (λ j, bool_decide (j ∈ es ++ [i])) l
  = List.filter (λ j, bool_decide (j ∈ es)) l.
Proof.
  intros Hi. induction l as [|j l IH]; [reflexivity|].
  cbn. rewrite IH.
  - assert (Hj : bool_decide (j ∈ es ++ [i]) = bool_decide (j ∈ es)).
    { apply bool_decide_ext. rewrite elem_of_app, list_elem_of_singleton.
      split; [|auto]. intros [H| ->]; [exact H|].
      destruct Hi as [H|H]; [exact H|]. exfalso. apply H. left. }
    rewrite Hj. reflexivity.
  - destruct Hi as [H|H]; [left; exact H|]. right. intros H'. apply H. right. exact H'.
Qed.

Lemma filter_ended_new (l es : list nat) (i : nat) :
  NoDup l → i ∈ l → i ∉ es →
  length (List.filter (λ j, bool_decide (j ∈ es ++ [i])) l)
  = S (length (List.filter (λ j, bool_decide (j ∈ es)) l)).
Proof.
  intros Hnd Hin Hnot. induction l as [|j l IH]; [inversion Hin|].
  apply NoDup_cons in Hnd as [Hj Hnd]. cbn.
  destruct (decide (j = i)) as [->|Hne].
  - rewrite (bool_decide_eq_true_2 (i ∈ es ++ [i])).
    2:{ apply elem_of_app. right. left. }
    rewrite (bool_decide_eq_false_2 (i ∈ es)) by exact Hnot.
    rewrite filter_ended_same by (right; exact Hj). reflexivity.
  - apply elem_of_cons in Hin as [->|Hin]; [congruence|].
    assert (Hb : bool_decide (j ∈ es ++ [i]) = bool_decide (j ∈ es)).
    { apply bool_decide_ext. rewrite elem_of_app, list_elem_of_singleton.
      split; [intros [H|H]; [exact H | congruence] | auto]. }
    rewrite Hb. destruct (bool_decide (j ∈ es)); cbn; rewrite (IH Hnd Hin); reflexivity.
Qed.

Lemma ended_nil n : ended n [] = 0%nat.
Proof.
  unfold ended. generalize 0%nat at 1.
  induction n as [|n IH]; intros a; [reflexivity|]. cbn. apply IH.
Qed.

Lemma ended_same n es i :
  (i ∈ es ∨ (n <= i)%nat) → ended n (es ++ [i]) = ended n es.
Proof.
  intros Hi. unfold ended. rewrite filter_ended_same; [reflexivity|].
  destruct Hi as [H|H]; [left; exact H|]. right.
  rewrite elem_of_seq. lia.
Qed.

Lemma ended_new n es i :
  (i < n)%nat → i ∉ es → ended n (es ++ [i]) = S (ended n es).
Proof.
  intros Hi Hnot. unfold ended. apply filter_ended_new.
  - apply NoDup_seq.
  - rewrite elem_of_seq. lia.
  - exact Hnot.
Qed.

Lemma ended_le n es : (ended n es <= n)%nat.
Proof.
  unfold ended. etransitivity; [apply List.filter_length_le|].
  rewrite length_seq. reflexivity.
Qed.

Lemma forallb_filter_length {A} (f : A → bool) (l : list A) :
  forallb f l = (length l <=? length (List.filter f l))%nat.
Proof.
  induction l as [|x l IH]; [reflexivity|].
  pose proof (List.filter_length_le f l) as Hle.
  change (forallb f (x :: l)) with (f x && forallb f l).
  change (List.filter f (x :: l))
    with (if f x then x :: List.filter f l else List.filter f l).
  change (length (x :: l)) with (S (length l)).
  destruct (f x).
  - rewrite IH. reflexivity.
  - symmetry. apply Nat.leb_gt. lia.
Qed.

Lemma all_ended_count n es : all_ended n es = (n <=? ended n es)%nat.
Proof.
  unfold all_ended, ended. rewrite forallb_filter_length, length_seq. reflexivity.
Qed.

(** *** The handlers of several runs *)

(** All the handlers of one strip run: every run counts one column more. *)
Lemma checkCompletion_all hook n c att (b : nat) : ∀ (a comp : nat),
  foldl (checkCompletion hook)
        (mkTracking (replicate a (mkRun (S c) n) ++ replicate b (mkRun c n))
                    att comp)
        (seq a b)
  = mkTracking (replicate (a + b) (mkRun (S c) n)) att
               (comp + (if (n <=? S c)%nat && hook then b else 0))%nat.
Proof.
  induction b as [|b IH]; intros a comp.
  - cbn. rewrite app_nil_r, !Nat.add_0_r.
    destruct (_ && _); rewrite ?Nat.add_0_r; reflexivity.
  - cbn [seq foldl]. unfold checkCompletion at 2. cbn [runs attached completed].
    rewrite lookup_app_r by (rewrite length_replicate; lia).
    rewrite length_replicate, Nat.sub_diag. cbn [replicate lookup list_lookup].
    cbn [completeCount totalDigits].
    rewrite insert_app_r_alt by (rewrite length_replicate; lia).
    rewrite length_replicate, Nat.sub_diag. cbn [insert list_insert].
    replace (replicate a (mkRun (S c) n) ++ mkRun (S c) n :: replicate b (mkRun c n))
      with (replicate (S a) (mkRun (S c) n) ++ replicate b (mkRun c n)).
    2:{ rewrite replicate_S_end, <- app_assoc. reflexivity. }
    rewrite IH. f_equal; [f_equal; lia|].
    destruct ((n <=? S c)%nat && hook); lia.
Qed.

(** On an instance whose strips hold [h] handlers each, [h] runs are
    pending, none of which has counted a column. *)
Lemma map_uniform {A B} (f : A → B) (l : list A) (b : B) :
  Forall (λ x, f x = b) l → map f l = replicate (length l) b.
Proof.
  induction 1 as [|x l Hx _ IH]; [reflexivity|].
  cbn. rewrite Hx, IH. reflexivity.
Qed.

Lemma max_list_replicate (n h : nat) :
  (1 <= n)%nat → max_list (replicate n h) = h.
Proof.
  intros Hn. induction n as [|n IH]; [lia|].
  cbn. destruct n as [|n]; [cbn; lia|]. rewrite IH by lia. lia.
Qed.

Lemma map_seq_const {A} (a : A) (n : nat) : ∀ k (f : nat → A),
  (∀ r, f r = a) → map f (seq k n) = replicate n a.
Proof.
  induction n as [|n IH]; intros k f Hf; [reflexivity|].
  cbn. rewrite Hf, (IH (S k) f Hf). reflexivity.
Qed.

Lemma filter_replicate_false {A} (f : A → bool) (a : A) (n : nat) :
  f a = false → List.filter f (replicate n a) = [].
Proof.
  intros Hf. induction n as [|n IH]; [reflexivity|]. cbn. rewrite Hf. exact IH.
Qed.

Lemma untracked_uniform s ds h :
  digitElements (this s) = Some ds → ds ≠ [] →
  Forall (λ x, handlers (strip x) = h) ds →
  untracked s
  = mkTracked s
      (mkTracking (replicate h (mkRun 0 (length ds)))
                  (replicate (length ds) (seq 0 h)) 0).
Proof.
  intros Hd Hne Hh. unfold untracked. rewrite Hd.
  rewrite (map_uniform (λ x, handlers (strip x)) ds h Hh).
  assert (Hn : (1 <= length ds)%nat) by (destruct ds; [congruence | cbn; lia]).
  rewrite (max_list_replicate _ h Hn), length_replicate.
  f_equal. f_equal.
  - apply map_seq_const. intros r.
    rewrite filter_replicate_false; [reflexivity|].
    apply Nat.ltb_ge. lia.
  - change (map ?f ?l) with (f <$> l). rewrite fmap_replicate, Nat.sub_diag.
    reflexivity.
Qed.

(** After [m] further calls of [start()] in a row. *)
Lemma start_times_spec m : ∀ t0 ds h,
  digitElements (this (widget t0)) = Some ds →
  runs (tracking t0) = replicate h (mkRun 0 (length ds)) →
  attached (tracking t0) = replicate (length ds) (seq 0 h) →
  completed (tracking t0) = 0%nat →
  ∃ t ds',
    start_times m t0 = Some t
    ∧ runs (tracking t) = replicate (h + m) (mkRun 0 (length ds))
    ∧ attached (tracking t) = replicate (length ds) (seq 0 (h + m))
    ∧ completed (tracking t) = 0%nat
    ∧ options (this (widget t)) = options (this (widget t0))
    ∧ digitElements (this (widget t)) = Some ds'
    ∧ length ds' = length ds.
Proof.
  intros t0 ds h Hd Hr0 Ha0 Hc0. induction m as [|m IH].
  - exists t0, ds. rewrite Nat.add_0_r. unfold start_times. cbn.
    split_and!; try assumption; reflexivity.
  - destruct IH as (t & ds' & Ht & Hr & Ha & Hc & Ho & Hd' & Hlen).
    change (start_times (S m) t0) with (start_times m t0 ≫= start_tracked).
    rewrite Ht. cbn [mbind option_bind].
    unfold start_tracked. rewrite Hd'.
    destruct (start_built (widget t) ds' Hd') as (s' & Hs & _ & _ & _ & Hds' & Ho').
    rewrite Hs. eexists _, _. split; [reflexivity|]. cbn.
    rewrite Hr, Ha, Hc, Ho', Ho, Hds', Hlen, length_replicate, Nat.add_succ_r.
    split_and!; try reflexivity.
    + symmetry. apply (replicate_S_end (h + m)).
    + change (map ?f ?l) with (f <$> l). rewrite fmap_replicate, seq_S. reflexivity.
    + rewrite length_imap. exact Hlen.
Qed.

(** The state of the closures after [m] calls of [start()] and the
    [transitionend] events [es]. *)
Lemma transitionends_spec hook (n m : nat) es : ∀ t,
  onComplete (options (this (widget t))) = hook →
  runs (tracking t) = replicate m (mkRun 0 n) →
  attached (tracking t) = replicate n (seq 0 m) →
  completed (tracking t) = 0%nat →
  let t' := transitionends es t in
  onComplete (options (this (widget t'))) = hook
  ∧ runs (tracking t') = replicate m (mkRun (ended n es) n)
  ∧ length (attached (tracking t')) = n
  ∧ (∀ i, (i < n)%nat →
       attached (tracking t') !! i
       = Some (if bool_decide (i ∈ es) then [] else seq 0 m))
  ∧ completed (tracking t')
    = (if (1 <=? ended n es)%nat && (n <=? ended n es)%nat && hook
       then m else 0%nat).
Proof.
  induction es as [|i es IH] using rev_ind; intros t Hh Hr Ha Hc; cbn zeta.
  - cbn [transitionends foldl]. rewrite Hr, Ha, Hc, length_replicate, ended_nil.
    split_and!; try reflexivity; try exact Hh.
    intros i Hi. rewrite lookup_replicate_2 by exact Hi. reflexivity.
  - destruct (IH t Hh Hr Ha Hc) as (Hh' & Hr' & Hlen' & Ha' & Hc').
    unfold transitionends in *. rewrite foldl_app. cbn [foldl].
    set (t1 := foldl _ t es) in *.
    unfold transitionend. cbn [widget tracking this options].
    rewrite Hh'.
    destruct (decide (i < n)%nat) as [Hi|Hi].
    + rewrite (Ha' i Hi). cbn [default from_option id].
      destruct (bool_decide (i ∈ es)) eqn:Hin.
      * apply bool_decide_eq_true in Hin. cbn [foldl tracking runs attached completed].
        rewrite (ended_same n es i) by (left; exact Hin).
        split_and!; try assumption; try reflexivity.
        -- rewrite length_insert. exact Hlen'.
        -- intros j Hj. destruct (decide (j = i)) as [->|Hne].
           ++ rewrite list_lookup_insert_eq by lia.
              rewrite bool_decide_eq_true_2; [reflexivity|].
              apply elem_of_app. left. exact Hin.
           ++ rewrite list_lookup_insert_ne by congruence. rewrite (Ha' j Hj).
              f_equal. apply (f_equal (λ b : bool, if b then [] else seq 0 m)).
              apply bool_decide_ext. rewrite elem_of_app, list_elem_of_singleton.
              split; [auto | intros [H|H]; [exact H | congruence]].
      * apply bool_decide_eq_false in Hin.
        rewrite Hr', Hc'.
        pose proof (checkCompletion_all hook n (ended n es)
                      (<[i:=[]]> (attached (tracking t1))) m 0
                      (if (1 <=? ended n es)%nat && (n <=? ended n es)%nat && hook
                       then m else 0%nat)) as Hfold.
        cbn [replicate app Nat.add] in Hfold. rewrite Hfold.
        cbn [tracking runs attached completed].
        rewrite (ended_new n es i Hi Hin).
        pose proof (ended_le n (es ++ [i])) as Hle.
        rewrite (ended_new n es i Hi Hin) in Hle.
        split_and!; try reflexivity.
        -- rewrite length_insert. exact Hlen'.
        -- intros j Hj. destruct (decide (j = i)) as [->|Hne].
           ++ rewrite list_lookup_insert_eq by lia.
              rewrite bool_decide_eq_true_2; [reflexivity|].
              apply elem_of_app. right. left.
           ++ rewrite list_lookup_insert_ne by congruence. rewrite (Ha' j Hj).
              f_equal. apply (f_equal (λ b : bool, if b then [] else seq 0 m)).
              apply bool_decide_ext. rewrite elem_of_app, list_elem_of_singleton.
              split; [auto | intros [H|H]; [exact H | congruence]].
        -- assert (Hlt : (n <=? ended n es)%nat = false) by (apply Nat.leb_gt; lia).
           rewrite Hlt, andb_false_r. cbn [andb Nat.leb].
           destruct ((n <=? S (ended n es))%nat && hook); lia.
    + rewrite (ended_same n es i) by (right; lia).
      rewrite lookup_ge_None_2 by lia.
      cbn [default from_option id foldl tracking runs attached completed].
      rewrite list_insert_ge by lia.
      split_and!; try assumption; try reflexivity.
      intros j Hj. rewrite (Ha' j Hj).
      f_equal. apply (f_equal (λ b : bool, if b then [] else seq 0 m)).
      apply bool_decide_ext. rewrite elem_of_app, list_elem_of_singleton.
      split; [auto | intros [H|H]; [exact H | lia]].
Qed.

(** X18. Completion is counted per call of [start()], and nothing resets
    the handlers of an earlier call.  Take a built instance whose strips
    hold [h] handlers each ([h = 0] for a new instance, [h = 1] for one the
    constructor has started already through the scroll fallback), call
    [start()] [m] times in a row, and let [transitionend] events arrive on
    the strips, in any order, repeated, or for columns that do not exist.
    Then [onComplete] has been called [h + m] times if the hook is set and
    every column has ended at least once, and not at all otherwise.  So a
    single [start()] on a new instance completes exactly once, when the
    last column ends, while a [start()] before the transitions of an
    earlier one have ended makes the hook fire twice. *)
Theorem completion_hook_per_run s ds (h m : nat) (es : list nat) :
  digitElements (this s) = Some ds → ds ≠ [] →
  Forall (λ x, handlers (strip x) = h) ds →
  ∃ t, start_times m (untracked s) = Some t
       ∧ completed (tracking t) = 0%nat
       ∧ completed (tracking (transitionends es t))
         = (if all_ended (length ds) es && onComplete (options (this s))
            then (h + m)%nat else 0%nat)
       ∧ runs (tracking (transitionends es t))
         = replicate (h + m) (mkRun (ended (length ds) es) (length ds)).
Proof.
  intros Hd Hne Hh. rewrite (untracked_uniform s ds h Hd Hne Hh).
  set (t0 := mkTracked s _).
  destruct (start_times_spec m t0 ds h Hd eq_refl eq_refl eq_refl)
    as (t & ds' & Ht & Hr & Ha & Hc & Ho & _).
  destruct (transitionends_spec (onComplete (options (this s))) (length ds)
              (h + m) es t)
    as (_ & Hr' & _ & _ & Hc'); try assumption.
  { rewrite Ho. reflexivity. }
  exists t. split_and!; try assumption.
  rewrite Hc', all_ended_count.
  assert (Hn : (1 <= length ds)%nat) by (destruct ds; [congruence | cbn; lia]).
  destruct (length ds <=? ended (length ds) es)%nat eqn:Hle.
  - apply Nat.leb_le in Hle.
    rewrite (proj2 (Nat.leb_le 1 (ended (length ds) es))) by lia. reflexivity.
  - rewrite andb_false_r. reflexivity.
Qed.

Lemma completion_hook_per_run_witness :
  ∃ s t,
    construct (mkElement (Some "42"%string) None) (mkGiven None None true true)
      (fresh_page false (layout_at 0)) = Some s
    ∧ (map (λ x, handlers (strip x)) <$> digitElements (this s))
      = Some [1; 1]%nat
    ∧ start_times 1 (untracked s) = Some t
    ∧ completed (tracking (transitionends [1; 0; 1]%nat t)) = 2%nat
    ∧ completed (tracking (transitionends [1; 1; 5]%nat t)) = 0%nat.
Proof.
  pose (s := default two_columns
               (construct (mkElement (Some "42"%string) None)
                  (mkGiven None None true true) (fresh_page false (layout_at 0)))).
  pose (ds := default [] (digitElements (this s))).
  assert (Hd : digitElements (this s) = Some ds) by (vm_compute; reflexivity).
  assert (Hh : Forall (λ x, handlers (strip x) = 1%nat) ds).
  { vm_compute. repeat constructor. }
  destruct (completion_hook_per_run s ds 1 1 [1; 0; 1]%nat Hd)
    as (t & Ht & _ & Hc & _); [discriminate | exact Hh |].
  destruct (completion_hook_per_run s ds 1 1 [1; 1; 5]%nat Hd)
    as (t' & Ht' & _ & Hc' & _); [discriminate | exact Hh |].
  rewrite Ht in Ht'. injection Ht' as <-.
  exists s, t. split_and!; [vm_compute; reflexivity | vm_compute; reflexivity
                           | exact Ht | exact Hc | exact Hc'].
Defined.

End DigitRunFacts.

(** ** The GSAP path *)

Module TweenFacts.
Import ModernCounter TweenRuns CounterFacts.

Lemma tween_onUpdate_live v s k :
  tweens (page s) = S k →
  tween_onUpdate v s
  = mkState
      (set_textContent (formatter (options (this s)) v (options (this s)))
         (set_value v (this s)))
      (let p := emit (Render (formatter (options (this s)) v (options (this s))))
                     (page s) in
       if onUpdate (options (this s)) then emit (OnUpdate v) p else p).
Proof.
  intros Hk. unfold tween_onUpdate. rewrite Hk.
  destruct_state s; compute_methods; reflexivity.
Qed.

Lemma frames_live vs : ∀ s k,
  tweens (page s) = S k →
  options (this (frames vs s)) = options (this s)
  ∧ value (this (frames vs s)) = default (value (this s)) (last vs)
  ∧ textContent (this (frames vs s))
    = from_option (λ v, formatter (options (this s)) v (options (this s)))
        (textContent (this s)) (last vs)
  ∧ loopCount (this (frames vs s)) = loopCount (this s)
  ∧ interval (this (frames vs s)) = interval (this s)
  ∧ trace (page (frames vs s))
    = trace (page s) ++ frame_events (options (this s)) vs
  ∧ tweens (page (frames vs s)) = S k
  ∧ timers (page (frames vs s)) = timers (page s).
Proof.
  induction vs as [|v vs IH]; intros s k Hk.
  - cbn. rewrite app_nil_r. auto 10.
  - change (frames (v :: vs) s) with (frames vs (tween_onUpdate v s)).
    rewrite (tween_onUpdate_live v s k Hk).
    set (s1 := mkState _ _).
    assert (Hk1 : tweens (page s1) = S k).
    { unfold s1. cbn. destruct (onUpdate _); exact Hk. }
    destruct (IH s1 k Hk1) as (Ho & Hv & Ht & Hl & Hi & Htr & Htw & Htm).
    rewrite Ho, Hv, Ht, Hl, Hi, Htr, Htw, Htm. rewrite last_cons.
    assert (Htr1 : trace (page s1)
                   = trace (page s)
                     ++ Render (formatter (options (this s)) v (options (this s)))
                        :: (if onUpdate (options (this s)) then [OnUpdate v] else [])).
    { unfold s1. cbn. destruct (onUpdate _); cbn; [|reflexivity].
      rewrite <- app_assoc. reflexivity. }
    assert (Htm1 : timers (page s1) = timers (page s)).
    { unfold s1. cbn. destruct (onUpdate _); reflexivity. }
    rewrite Htr1, Htm1.
    split_and!; try reflexivity.
    + destruct (last vs); reflexivity.
    + destruct (last vs); reflexivity.
    + cbn [frame_events flat_map]. rewrite <- app_assoc. reflexivity.
Qed.

Lemma gsap_start_true s : gsap (page s) = true → gsap (page (start s)) = true.
Proof. intros Hg. rewrite (start_gsap s Hg). exact Hg. Qed.

Lemma frames_dead vs : ∀ s, tweens (page s) = 0%nat → frames vs s = s.
Proof.
  induction vs as [|v vs IH]; intros s Hk; [reflexivity|].
  change (frames (v :: vs) s) with (frames vs (tween_onUpdate v s)).
  unfold tween_onUpdate. rewrite Hk. apply IH, Hk.
Qed.

(** X19. With [gsap] defined, the value and the text are what GSAP's frames
    make them.  After [start()], each frame renders the value GSAP wrote and
    passes it to the update hook; the completion callback passes
    [options.to] to the completion hook but neither assigns [this.value] nor
    renders.  So after the tween has ended the value is the one of the last
    frame (or [from] if there was none) and the element shows it (or the
    value from before [start()]), whether or not that is [to].  Once
    [stop()] has killed the tween, frames and the completion callback change
    nothing. *)
Theorem tween_run s vs :
  gsap (page s) = true → timer_inv s →
  let o := options (this s) in
  let s1 := start s in
  let s2 := tween_onComplete (frames vs s1) in
  value (this s2) = default (from o) (last vs)
  ∧ textContent (this s2)
    = formatter o (default (value (this s)) (last vs)) o
  ∧ events_since (page s1) s2
    = frame_events o vs ++ (if onComplete o then [OnComplete (to o)] else [])
  ∧ tweens (page s2) = 0%nat
  ∧ timers (page s2) = ∅
  ∧ interval (this s2) = None
  ∧ frames vs (stop s1) = stop s1
  ∧ tween_onComplete (stop s1) = stop s1.
Proof.
  intros Hg Hinv o s1 s2.
  assert (Hs1 : tweens (page s1) = 1%nat
                ∧ options (this s1) = o
                ∧ value (this s1) = from o
                ∧ textContent (this s1) = formatter o (value (this s)) o
                ∧ interval (this s1) = None
                ∧ timers (page s1) = timers (page (stop s))).
  { unfold s1. rewrite (start_gsap s Hg). cbn. auto 10. }
  destruct Hs1 as (Htw1 & Ho1 & Hv1 & Ht1 & Hi1 & Htm1).
  destruct (frames_live vs s1 0 Htw1) as (Ho & Hv & Ht & _ & Hi & Htr & Htw & Htm).
  rewrite Ho1 in *. rewrite Hv1 in Hv. rewrite Ht1 in Ht. rewrite Hi1 in Hi.
  rewrite Htm1, (stop_releases s Hinv) in Htm.
  assert (Hs2 : s2 = mkState (this (frames vs s1))
                       (set_tweens 0
                          (if onComplete o
                           then emit (OnComplete (to o)) (page (frames vs s1))
                           else page (frames vs s1)))).
  { unfold s2, tween_onComplete. rewrite Htw.
    unfold call_onComplete. rewrite Ho.
    destruct (frames vs s1) as [c p]. destruct (onComplete o); reflexivity. }
  assert (Hdead : tweens (page (stop s1)) = 0%nat).
  { destruct (stop_page_rest s1) as (_ & _ & _ & _ & Hk).
    rewrite Hk. unfold s1. rewrite gsap_start_true by exact Hg. reflexivity. }
  split_and!.
  - rewrite Hs2. exact Hv.
  - rewrite Hs2. cbn [this]. rewrite Ht. destruct (last vs); reflexivity.
  - rewrite Hs2. unfold events_since. cbn [page].
    destruct (onComplete o); cbn; rewrite Htr.
    + rewrite <- app_assoc. rewrite drop_app_length. reflexivity.
    + rewrite app_nil_r. rewrite drop_app_length. reflexivity.
  - rewrite Hs2. reflexivity.
  - rewrite Hs2. cbn. destruct (onComplete o); exact Htm.
  - rewrite Hs2. exact Hi.
  - apply frames_dead, Hdead.
  - unfold tween_onComplete. rewrite Hdead. reflexivity.
Qed.

Lemma tween_run_witness :
  value (this (tween_onComplete
                 (frames [400; 999]%float (start (construct "" scenario gsap_page)))))
  = 999%float
  ∧ events_since (page (start (construct "" scenario gsap_page)))
      (tween_onComplete
         (frames [400; 999]%float (start (construct "" scenario gsap_page))))
    = [Render "400"; OnUpdate 400; Render "999"; OnUpdate 999;
       OnComplete 1000]%float.
Proof.
  destruct (tween_run (construct "" scenario gsap_page) [400; 999]%float eq_refl)
    as (Hv & _ & He & _); [apply timer_inv_empty; reflexivity|].
  auto.
Defined.

End TweenFacts.

(** ** The tick count as a natural number *)

Module NumberChecks.
Import JSChecks.

(** The model keeps [loopCount] as a natural number and compares it with
    [loops] exactly.  On the doubles themselves this is what the code
    computes: for all counts and all numbers of ticks below 200 the IEEE
    comparison gives the same answer, and for all counts below 2000 the
    increment of the double is exact. *)
Lemma count_as_double :
  agree_below 200 = true ∧ increments_below 2000 = true.
Proof. split; vm_compute; reflexivity. Qed.

End NumberChecks.
